(** * gym_energyplus.wrappers: a shallow embedding of the wrapper stack

    The four stackable layers of [src/gym_energyplus/wrappers.py]
    (RepeatAction, EnergyPlusWrapper, EnergyPlusObsWrapper and
    EnergyPlusDiscreteActionWrapper) are embedded as Rocq functions.

    Conventions of the embedding:
    - Python floats are idealised as exact rationals [Q]; numeric equality of
      floats is [Qeq].  Rounding error is not modelled.
    - Python ints are [Z]; [%] and [//] are [Z.modulo] and [Z.div], which
      agree with Python's floor semantics.
    - A one-dimensional numpy array is a [list Q]; a two-dimensional torch
      tensor is a record of its column count and its rows.
    - A raised exception is the [Raise] outcome; stateful methods return the
      outcome together with the state at the moment of return or raise, so
      what a failed call left behind is visible.
    - A [dict] is a [gmap string pyval].
    - The wrapped environment is an instance of the class [GymEnv]; every
      call a wrapper makes to it is appended to a call log. *)

From Stdlib Require Import QArith ZArith Lia.
From stdpp Require Import base option list gmap strings.

Open Scope Z_scope.

(** ** Python outcomes *)

Inductive exn : Type :=
| AssertionError
| ValueError
| TypeError
| AttributeError
| IndexError
| RuntimeError
| ZeroDivisionError.

Inductive result (A : Type) : Type :=
| Ok (a : A)
| Raise (e : exn).
Arguments Ok {A} a.
Arguments Raise {A} e.

#[global] Instance result_ret : MRet result := fun A a => Ok a.
#[global] Instance result_bind : MBind result :=
fun A B f m => match m with Ok a => f a | Raise e => Raise e end.

(** Values stored in an [info] dictionary. *)
Inductive pyval : Type :=
| PyNone
| PyBool (b : bool)
| PyInt (z : Z)
| PyFloat (q : Q)
| PyStr (s : string).

Abbreviation pydict := (gmap string pyval).

(** ** The numpy and torch operations the wrappers call *)

Module Numpy.

(** [a[i]] on a 1-D array, for a non-negative literal index. *)
Definition getitem (a : list Q) (i : nat) : result Q :=
  match a !! i with
  | Some x => Ok x
  | None => Raise IndexError
  end.

(** [a[lo:hi]] and [a[lo:]] for non-negative literal bounds. *)
Definition slice (lo hi : nat) (a : list Q) : list Q := take (hi - lo) (drop lo a).
Definition slice_from (lo : nat) (a : list Q) : list Q := drop lo a.

(** Elementwise binary operation of two 1-D arrays with numpy's
    broadcasting: equal lengths combine pointwise, a length-1 operand is
    stretched, anything else is a [ValueError]. *)
Definition broadcast (op : Q -> Q -> Q) (x y : list Q) : result (list Q) :=
  if (length x =? length y)%nat then Ok (zip_with op x y)
  else match x, y with
       | [a], _ => Ok (map (op a) y)
       | _, [b] => Ok (map (fun a => op a b) x)
       | _, _ => Raise ValueError
       end.

(** [np.insert(a, i, v)] for a non-negative index. *)
Definition insert (a : list Q) (i : nat) (v : Q) : result (list Q) :=
  if (i <=? length a)%nat then Ok (take i a ++ v :: drop i a)
  else Raise IndexError.

Definition concatenate (a b : list Q) : list Q := a ++ b.

(** [np.array_equal(a, b)]: same shape and all elements equal. *)
Fixpoint array_equal (a b : list Q) : bool :=
  match a, b with
  | [], [] => true
  | x :: a', y :: b' => Qeq_bool x y && array_equal a' b'
  | _, _ => false
  end.

Definition sum (l : list Q) : Q := foldl Qplus 0%Q l.

(** [np.mean(l)] of a list of scalars: the sum divided by the count. *)
Definition mean (l : list Q) : Q := (sum l / inject_Z (Z.of_nat (length l)))%Q.

(** [np.mean(rows, axis=0)] of a list of 1-D arrays: the rows must share
    one shape; the rows are added up pointwise and divided by their
    count. *)
Definition mean_axis0 (rows : list (list Q)) : result (list Q) :=
  match rows with
  | [] => Raise ValueError
  | r :: rest =>
      if forallb (fun r' => (length r' =? length r)%nat) rest
      then Ok (map (fun s => (s / inject_Z (Z.of_nat (length rows)))%Q)
                   (foldl (zip_with Qplus) r rest))
      else Raise ValueError
  end.

Definition arange (num : Z) : list Z := map Z.of_nat (seq 0 (Z.to_nat num)).

(** [np.linspace(start, stop, num)] with the default [endpoint=True]:
    [arange(num) * step + start], the last entry overwritten by [stop]
    when [num > 1]. *)
Definition linspace (start stop : Q) (num : Z) : result (list Q) :=
  if num <? 0 then Raise ValueError
  else
    let step := ((stop - start) / inject_Z (num - 1))%Q in
    let y := map (fun i => (inject_Z i * step + start)%Q) (arange num) in
    Ok (if 1 <? num then <[Z.to_nat (num - 1) := stop]> y else y).

(** [table[i]] for an integer index, negative indices counting from the
    end. *)
Definition getitem_int (table : list Q) (i : Z) : result Q :=
  let n := Z.of_nat (length table) in
  if (0 <=? i) && (i <? n) then getitem table (Z.to_nat i)
  else if (- n <=? i) && (i <? 0) then getitem table (Z.to_nat (n + i))
  else Raise IndexError.

(** [table[indices]] for a list of integer indices. *)
Fixpoint take_indices (table : list Q) (indices : list Z) : result (list Q) :=
  match indices with
  | [] => Ok []
  | i :: rest =>
      x ← getitem_int table i;
      xs ← take_indices table rest;
      mret (x :: xs)
  end.

End Numpy.

Module Torch.

(** A 2-D tensor: its second dimension and its rows. *)
Record tensor2 : Type := { ncols : nat; trows : list (list Q) }.

Definition well_formed (t : tensor2) : Prop :=
  Forall (fun r => length r = ncols t) (trows t).

(** [t.unsqueeze(dim=0)] of a 1-D tensor. *)
Definition unsqueeze0 (v : list Q) : tensor2 :=
  {| ncols := length v; trows := [v] |}.

(** Broadcasting of one dimension: equal sizes agree, a size of 1 is
    stretched to the other, anything else is incompatible. *)
Definition bshape (a b : nat) : option nat :=
  if (a =? b)%nat then Some a
  else if (a =? 1)%nat then Some b
  else if (b =? 1)%nat then Some a
  else None.

Definition expand {A : Type} (n : nat) (l : list A) : list A :=
  match l with
  | [a] => replicate n a
  | _ => l
  end.

(** [a * b] for two 2-D tensors, with broadcasting on both dimensions. *)
Definition mul (a b : tensor2) : result tensor2 :=
  match bshape (length (trows a)) (length (trows b)), bshape (ncols a) (ncols b) with
  | Some B, Some n =>
      Ok {| ncols := n;
            trows := zip_with (fun r s => zip_with Qmult (expand n r) (expand n s))
                              (expand B (trows a)) (expand B (trows b)) |}
  | _, _ => Raise RuntimeError
  end.

(** [t[:, lo:hi]] and [t[:, lo:]]. *)
Definition cols (lo hi : nat) (t : tensor2) : tensor2 :=
  {| ncols := (Nat.min hi (ncols t) - lo)%nat;
     trows := map (Numpy.slice lo hi) (trows t) |}.
Definition cols_from (lo : nat) (t : tensor2) : tensor2 :=
  {| ncols := (ncols t - lo)%nat; trows := map (Numpy.slice_from lo) (trows t) |}.

(** [a + b] for two tensors of one shape. *)
Definition add (a b : tensor2) : result tensor2 :=
  if (ncols a =? ncols b)%nat && (length (trows a) =? length (trows b))%nat then
    Ok {| ncols := ncols a; trows := zip_with (zip_with Qplus) (trows a) (trows b) |}
  else Raise RuntimeError.

(** [torch.cat((a, b, c), dim=-1)]. *)
Definition cat3 (a b c : tensor2) : result tensor2 :=
  if (length (trows a) =? length (trows b))%nat
     && (length (trows b) =? length (trows c))%nat then
    Ok {| ncols := (ncols a + ncols b + ncols c)%nat;
          trows := zip_with app (trows a) (zip_with app (trows b) (trows c)) |}
  else Raise RuntimeError.

End Torch.

(** ** EnergyPlusObsWrapper *)

Module EnergyPlusObsWrapper.

Definition obs_max : list Q := [50; 50; 50; 100000; 100000]%Q.

Definition obs_max_tensor : Torch.tensor2 := Torch.unsqueeze0 obs_max.

Definition reverse_observation (normalized_obs : list Q) : result (list Q) :=
  obs ← Numpy.broadcast Qmult normalized_obs obs_max;
  p3 ← Numpy.getitem obs 3;
  p4 ← Numpy.getitem obs 4;
  let total_power := (p3 + p4)%Q in
  Numpy.insert obs 3 total_power.

Definition observation (observation : list Q) : result (list Q) :=
  let temperature_obs := Numpy.slice 0 3 observation in
  let power_obs := Numpy.slice_from 4 observation in
  let obs := Numpy.concatenate temperature_obs power_obs in
  Numpy.broadcast Qdiv obs obs_max.

Definition reverse_observation_batch_tensor (normalized_obs : Torch.tensor2)
  : result Torch.tensor2 :=
  obs ← Torch.mul normalized_obs obs_max_tensor;
  total_power ← Torch.add (Torch.cols 3 4 obs) (Torch.cols 4 5 obs);
  Torch.cat3 (Torch.cols 0 3 obs) total_power (Torch.cols_from 3 obs).

(** Row-wise reading of the batched transform, used to state its
    properties: the scaled row computed from one input row, and the output
    row assembled from a scaled row. *)
Definition scaled_row (r : list Q) : list Q :=
  zip_with Qmult (Torch.expand 5 r) obs_max.

Definition assembled_row (o : list Q) : list Q :=
  Numpy.slice 0 3 o
  ++ zip_with Qplus (Numpy.slice 3 4 o) (Numpy.slice 4 5 o)
  ++ Numpy.slice_from 3 o.

(** [cost_fn]: the inner cost function applied to the batches restored to
    raw units; [actions] is handed over as it is.  The inner cost function
    is a parameter. *)
Section Cost.
Context {A C : Type} (env_cost_fn : Torch.tensor2 -> A -> Torch.tensor2 -> C).

Definition cost_fn (states : Torch.tensor2) (actions : A) (next_states : Torch.tensor2)
  : result C :=
  states' ← reverse_observation_batch_tensor states;
  next_states' ← reverse_observation_batch_tensor next_states;
  mret (env_cost_fn states' actions next_states').

End Cost.

End EnergyPlusObsWrapper.

(** ** The gym interface *)

Module Gym.

(** [Box(low, high, shape=(n,)).contains(x)] for scalar bounds: the shape
    matches and every component lies within the bounds. *)
Definition Box_contains (low high : Q) (shape : nat) (x : list Q) : bool :=
  (length x =? shape)%nat
  && forallb (fun v => Qle_bool low v) x
  && forallb (fun v => Qle_bool v high) x.

(** [Discrete(n).contains(x)] for an integer [x]. *)
Definition Discrete_contains (n : Z) (x : Z) : bool := (0 <=? x) && (x <? n).

End Gym.

(** What one [step] of an environment returns: observation, reward, done
    and info. *)
Abbreviation transition := (list Q * Q * bool * pydict)%type.

Definition obs_of (tr : transition) : list Q := tr.1.1.1.
Definition reward_of (tr : transition) : Q := tr.1.1.2.
Definition done_of (tr : transition) : bool := tr.1.2.
Definition info_of (tr : transition) : pydict := tr.2.

(** The contract of the wrapped environment: [step] and [reset] as
    deterministic functions of the simulator state, and the integer
    attribute [current_steps] of the environment, if it (or a layer it
    wraps) has one: gym's [Wrapper.__getattr__] hands a wrapper's read of an
    attribute it has not assigned itself on to the wrapped environment. *)
Class GymEnv (E : Type) : Type := {
  env_step : E -> list Q -> transition * E;
  env_reset : E -> pydict -> list Q * E;
  env_current_steps : E -> option Z
}.

(** Calls made to the wrapped environment. *)
Inductive call : Type :=
| CallStep (action : list Q)
| CallReset (kwargs : pydict).

(** The wrapped environment together with the log of the calls it has
    received. *)
Record world (E : Type) : Type := { sim : E; calls : list call }.
Arguments sim {E} w.
Arguments calls {E} w.

Section Inner.
Context {E : Type} `{GymEnv E}.

(** [self.env.step(action)] *)
Definition inner_step (w : world E) (action : list Q) : transition * world E :=
  let '(tr, e') := env_step (sim w) action in
  (tr, {| sim := e'; calls := calls w ++ [CallStep action] |}).

(** [self.env.reset], forwarding the keyword arguments *)
Definition inner_reset (w : world E) (kwargs : pydict) : list Q * world E :=
  let '(o, e') := env_reset (sim w) kwargs in
  (o, {| sim := e'; calls := calls w ++ [CallReset kwargs] |}).

(** The transitions of [k] consecutive inner [step]s with one action, and
    the simulator state they lead to. *)
Fixpoint inner_run (k : nat) (action : list Q) (e : E) : list transition * E :=
  match k with
  | O => ([], e)
  | S k' =>
      let '(tr, e1) := env_step e action in
      let '(trs, e2) := inner_run k' action e1 in
      (tr :: trs, e2)
  end.

End Inner.

(** ** RepeatAction *)

Module RepeatAction.

Record t : Type := {
  last_obs : option (list Q);
  reward : list Q;
  obs : list (list Q)
}.

Definition __init__ : t := {| last_obs := None; reward := []; obs := [] |}.

(** [self.obs.append(obs); self.reward.append(reward)] *)
Definition append_sample (self : t) (tr : transition) : t :=
  let '(o, r, _, _) := tr in
  {| last_obs := last_obs self; reward := reward self ++ [r]; obs := obs self ++ [o] |}.

(** [np.array_equal(obs[:3], self.last_obs[:3])]; subscripting [None] is a
    [TypeError]. *)
Definition same_prefix (self : t) (o : list Q) : result bool :=
  match last_obs self with
  | None => Raise TypeError
  | Some lo => Ok (Numpy.array_equal (Numpy.slice 0 3 o) (Numpy.slice 0 3 lo))
  end.

(** The guard of the [while] loop, for a baseline observation [base] and
    the transition just received: the first three fields are unchanged and
    the simulator has not terminated. *)
Definition continues (base : list Q) (tr : transition) : bool :=
  Numpy.array_equal (Numpy.slice 0 3 (obs_of tr)) (Numpy.slice 0 3 base)
  && negb (done_of tr).

(** Field [j] summed over a list of observations, and the rewards of a
    list of transitions summed: the numerators of the means of a control
    step. *)
Definition field_sum (j : nat) (rows : list (list Q)) : Q :=
  fold_right (fun r acc => (default 0 (r !! j) + acc)%Q) 0%Q rows.

Definition reward_sum (trs : list transition) : Q :=
  fold_right (fun tr acc => (reward_of tr + acc)%Q) 0%Q trs.

Section Methods.
Context {E : Type} `{GymEnv E}.

(** The [while] loop of [step]; [None] when [fuel] iterations were not
    enough to leave it. *)
Fixpoint repeat_while (fuel : nat) (action : list Q) (cur : transition)
    (self : t) (w : world E) : option (result transition * (t * world E)) :=
  let '(o, _, done, _) := cur in
  match same_prefix self o with
  | Raise e => Some (Raise e, (self, w))
  | Ok same =>
      if same && negb done then
        match fuel with
        | O => None
        | S fuel' =>
            let '(cur', w') := inner_step w action in
            repeat_while fuel' action cur' (append_sample self cur') w'
        end
      else Some (Ok cur, (self, w))
  end.

Definition step (fuel : nat) (action : list Q) (self : t) (w : world E)
  : option (result transition * (t * world E)) :=
  let '(cur, w1) := inner_step w action in
  let self1 := append_sample self cur in
  match repeat_while fuel action cur self1 w1 with
  | None => None
  | Some (Raise e, st) => Some (Raise e, st)
  | Some (Ok (o, r, done, info), (self2, w2)) =>
      let self3 := {| last_obs := Some o; reward := reward self2; obs := obs self2 |} in
      match Numpy.mean_axis0 (obs self3) with
      | Raise e => Some (Raise e, (self3, w2))
      | Ok mean_obs =>
          let mean_reward := Numpy.mean (reward self3) in
          Some (Ok (mean_obs, mean_reward, done, info),
                ({| last_obs := Some o; reward := []; obs := [] |}, w2))
      end
  end.

Definition reset (kwargs : pydict) (self : t) (w : world E) : list Q * (t * world E) :=
  let '(o, w1) := inner_reset w kwargs in
  (o, ({| last_obs := Some o; reward := reward self; obs := obs self |}, w1)).

End Methods.

End RepeatAction.

(** ** EnergyPlusWrapper *)

Module EnergyPlusWrapper.

(** [current_steps] is [None] until the wrapper first assigns the
    attribute; [shape] is the dimension of the [Box] action space. *)
Record t : Type := {
  max_steps : Z;
  true_done : bool;
  last_obs : option (list Q);
  current_steps : option Z;
  shape : nat
}.

(** [__init__(env, max_steps)], with [shape] the dimension of
    [env.action_space]. *)
Definition __init__ (shape : nat) (max_steps : Z) : result t :=
  if 0 <? max_steps then
    Ok {| max_steps := max_steps; true_done := true; last_obs := None;
          current_steps := None; shape := shape |}
  else Raise AssertionError.

Definition get_obs (self : t) : option (list Q) := last_obs self.

Definition set_last_obs (self : t) (o : list Q) : t :=
  {| max_steps := max_steps self; true_done := true_done self; last_obs := Some o;
     current_steps := current_steps self; shape := shape self |}.

Definition set_true_done (self : t) (b : bool) : t :=
  {| max_steps := max_steps self; true_done := b; last_obs := last_obs self;
     current_steps := current_steps self; shape := shape self |}.

Definition set_current_steps (self : t) (c : Z) : t :=
  {| max_steps := max_steps self; true_done := true_done self; last_obs := last_obs self;
     current_steps := Some c; shape := shape self |}.

(** What [step] returns: [self.get_obs()], reward, done and info. *)
Abbreviation outcome := (option (list Q) * Q * bool * pydict)%type.

Section Methods.
Context {E : Type} `{GymEnv E}.

(** The read of [self.current_steps]: the wrapper's own attribute once it
    is assigned, else the attribute of the wrapped environment. *)
Definition read_current_steps (self : t) (w : world E) : option Z :=
  match current_steps self with
  | Some c => Some c
  | None => env_current_steps (sim w)
  end.

Definition step (action : list Q) (self : t) (w : world E)
  : result outcome * (t * world E) :=
  if negb (Gym.Box_contains (-1) 1 (shape self) action) then
    (Raise AssertionError, (self, w))
  else
    let '((o, r, done, info), w1) := inner_step w action in
    let self1 := set_last_obs self o in
    if done then
      let self2 := set_true_done self1 true in
      let info := <["true_done" := PyBool true]> info in
      (Ok (get_obs self2, r, done, info), (self2, w1))
    else
      let info := <["true_done" := PyBool false]> info in
      match read_current_steps self1 w1 with
      | None => (Raise AttributeError, (self1, w1))
      | Some c =>
          let self2 := set_current_steps self1 (c + 1) in
          if c + 1 =? max_steps self2 then
            (Ok (get_obs self2, r, true, info), (self2, w1))
          else if c + 1 <? max_steps self2 then
            (Ok (get_obs self2, r, done, info), (self2, w1))
          else (Raise ValueError, (self2, w1))
      end.

Definition reset (kwargs : pydict) (self : t) (w : world E)
  : option (list Q) * (t * world E) :=
  let '(self1, w1) :=
    if true_done self then
      let '(o, w1) := inner_reset w kwargs in
      (set_true_done (set_last_obs self o) false, w1)
    else (self, w) in
  let self2 := set_current_steps self1 0 in
  (get_obs self2, (self2, w1)).

(** One [step] per action of a list, stopping at the first call that
    raises; the outcomes are returned in call order. *)
Fixpoint steps (actions : list (list Q)) (self : t) (w : world E)
  : list (result outcome) * (t * world E) :=
  match actions with
  | [] => ([], (self, w))
  | a :: rest =>
      match step a self w with
      | (Ok out, (self', w')) =>
          let '(outs, st) := steps rest self' w' in
          (Ok out :: outs, st)
      | (Raise e, st) => ([Raise e], st)
      end
  end.

End Methods.

(** The wrapper as [__init__] leaves it for a 4-dimensional action space
    and [max_steps = 3]. *)
Definition constructed : t :=
  {| max_steps := 3; true_done := true; last_obs := None;
     current_steps := None; shape := 4 |}.


End EnergyPlusWrapper.

(** ** EnergyPlusDiscreteActionWrapper *)

Module EnergyPlusDiscreteActionWrapper.

(** [space_n] is the size of the [Discrete] action space and [dims] is
    [env.action_space.shape[0]]. *)
Record t : Type := {
  space_n : Z;
  action_table : list Q;
  num_levels : Z;
  dims : nat
}.

(** [__init__(env, num_levels)], with [dims] the dimension of
    [env.action_space]; [Discrete(n)] asserts [n >= 0]. *)
Definition __init__ (dims : nat) (num_levels : Z) : result t :=
  let n := num_levels ^ Z.of_nat dims in
  if n <? 0 then Raise AssertionError
  else
    table ← Numpy.linspace (-1) 1 num_levels;
    mret {| space_n := n; action_table := table; num_levels := num_levels; dims := dims |}.

(** The [for] loop of [action]: one remainder per dimension, dimension 0
    first. *)
Fixpoint decompose (dims : nat) (num_levels : Z) (action : Z) : result (list Z) :=
  match dims with
  | O => Ok []
  | S dims' =>
      if num_levels =? 0 then Raise ZeroDivisionError
      else
        let remainder := action mod num_levels in
        rest ← decompose dims' num_levels ((action - remainder) / num_levels);
        mret (remainder :: rest)
  end.

Definition action (self : t) (action : Z) : result (list Q) :=
  if negb (Gym.Discrete_contains (space_n self) action) then Raise AssertionError
  else
    binary_action ← decompose (dims self) (num_levels self) action;
    Numpy.take_indices (action_table self) binary_action.

(** The [i]-th digit of [action] in base [num_levels], least significant
    digit first: the closed form of the remainder the loop appends on its
    [i]-th round. *)
Definition digit (num_levels : Z) (action : Z) (i : nat) : Z :=
  (action / num_levels ^ Z.of_nat i) mod num_levels.

(** The body of [reverse_action] is [pass]: it returns [None] for every
    argument. *)
Definition reverse_action (self : t) (action : list Q) : option Z := None.

End EnergyPlusDiscreteActionWrapper.

(** ** Monitor

    Only the arithmetic of [Monitor.step] is embedded: the action handed to
    the logger, mapped from the normalized range back to the range of the
    action space.  The files and the summary writer are not modelled. *)

Module Monitor.

(** [low + (action + 1.) * 0.5 * (high - low)], with [low] and [high] the
    bounds of [self.action_space]. *)
Definition original_action (low high action : list Q) : result (list Q) :=
  let shifted := map (fun a => (a + 1)%Q) action in
  let halved := map (fun a => (a * (1 # 2))%Q) shifted in
  width ← Numpy.broadcast Qminus high low;
  scaled ← Numpy.broadcast Qmult halved width;
  Numpy.broadcast Qplus low scaled.

End Monitor.

(** ** A scripted simulator

    A concrete environment used to run the wrappers: a clock that advances
    by one on every [step]; the first three observation fields change once
    every [period] sub-steps; the episode ends when the clock reaches
    [horizon]. *)

Module Scripted.

Record t : Type := { period : nat; horizon : nat; clock : nat }.

Definition observe (s : t) : list Q :=
  let c := inject_Z (Z.of_nat (clock s / period s)) in
  let p := inject_Z (Z.of_nat (clock s)) in
  [c; c; c; p + p; p; p]%Q.

Definition tick (s : t) : t :=
  {| period := period s; horizon := horizon s; clock := S (clock s) |}.

Definition rewind (s : t) : t :=
  {| period := period s; horizon := horizon s; clock := O |}.

#[global] Instance scripted_env : GymEnv t := {
  env_step s action :=
    let s' := tick s in
    ((observe s', inject_Z (Z.of_nat (clock s')), (clock s' =? horizon s')%nat, ∅), s');
  env_reset s kwargs := (observe (rewind s), rewind s);
  env_current_steps s := None
}.

Definition fresh (period horizon : nat) : world t :=
  {| sim := {| period := period; horizon := horizon; clock := O |}; calls := [] |}.

End Scripted.

(** A scripted simulator that never terminates: a clock that advances by
    one on every [step] and is reported in every observation field. *)

Module Endless.

Record t : Type := { clock : nat }.

Definition observe (s : t) : list Q :=
  let p := inject_Z (Z.of_nat (clock s)) in
  [p; p; p; p + p; p; p]%Q.

#[global] Instance endless_env : GymEnv t := {
  env_step s action :=
    let s' := {| clock := S (clock s) |} in
    ((observe s', 1%Q, false, ∅), s');
  env_reset s kwargs := (observe {| clock := O |}, {| clock := O |});
  env_current_steps s := None
}.

Definition fresh : world t := {| sim := {| clock := O |}; calls := [] |}.

End Endless.

(** A scripted simulator whose observation never changes and which never
    terminates; it only counts the steps it has made. *)

Module Frozen.

Record t : Type := { steps_made : nat }.

Definition observe : list Q := [20; 21; 22; 5; 3; 2]%Q.

#[global] Instance frozen_env : GymEnv t := {
  env_step s action := ((observe, 0%Q, false, ∅), {| steps_made := S (steps_made s) |});
  env_reset s kwargs := (observe, {| steps_made := O |});
  env_current_steps s := None
}.

Definition fresh : world t := {| sim := {| steps_made := O |}; calls := [] |}.

End Frozen.

(** A scripted simulator that never terminates and keeps a step counter of
    its own in an attribute named [current_steps]. *)

Module Counting.

Record t : Type := { current_steps : nat }.

Definition observe (s : t) : list Q :=
  let p := inject_Z (Z.of_nat (current_steps s)) in
  [p; p; p; p + p; p; p]%Q.

#[global] Instance counting_env : GymEnv t := {
  env_step s action :=
    let s' := {| current_steps := S (current_steps s) |} in
    ((observe s', 1%Q, false, ∅), s');
  env_reset s kwargs := (observe {| current_steps := O |}, {| current_steps := O |});
  env_current_steps s := Some (Z.of_nat (current_steps s))
}.

Definition fresh : world t := {| sim := {| current_steps := O |}; calls := [] |}.

End Counting.

(** * Properties *)

(** ** Observation normalisation *)

Section ObsWrapperFacts.
Import EnergyPlusObsWrapper.

(** Whatever the operand, a successful broadcast against [obs_max] has the
    five fields of [obs_max]. *)
Lemma broadcast_obs_max_length (op : Q -> Q -> Q) (x y : list Q) :
  Numpy.broadcast op x obs_max = Ok y -> length y = 5%nat.
Proof.
  unfold Numpy.broadcast.
  destruct (length x =? length obs_max)%nat eqn:Hlen.
  - apply Nat.eqb_eq in Hlen. intros [= <-].
    rewrite length_zip_with, Hlen. reflexivity.
  - destruct x as [|a [|b x]]; cbn; intros Hy; try discriminate.
    injection Hy as <-. reflexivity.
Qed.

Lemma observation_length (raw x : list Q) :
  observation raw = Ok x -> length x = 5%nat.
Proof. apply broadcast_obs_max_length. Qed.

(** A list of five fields, spelled out. *)
Lemma length_five (x : list Q) :
  length x = 5%nat -> exists a b c d e, x = [a; b; c; d; e].
Proof.
  destruct x as [|a [|b [|c [|d [|e [|f x]]]]]]; try discriminate.
  intros _. by exists a, b, c, d, e.
Qed.

Lemma reverse_observation_five (a b c d e : Q) :
  reverse_observation [a; b; c; d; e]
  = Ok [a * 50; b * 50; c * 50; d * 100000 + e * 100000; d * 100000; e * 100000]%Q.
Proof. reflexivity. Qed.

Lemma observation_six (a b c p d e : Q) :
  observation [a; b; c; p; d; e]
  = Ok [a / 50; b / 50; c / 50; d / 100000; e / 100000]%Q.
Proof. reflexivity. Qed.

(** C1: for every normalized observation [x] of five fields, and so for
    every [x] that [observation] produces, [reverse_observation x] succeeds
    with six fields: the retained fields are those of [x] multiplied by
    [obs_max], and field 3 is the total power, the sum of fields 4 and 5.
    [observation] applied to that result drops field 3 (whatever it holds)
    and divides the retained fields by the same [obs_max], which gives [x]
    back field by field (floats idealised as rationals, so the tolerance
    is zero). *)
Theorem observation_reverse_observation (x : list Q) :
  length x = 5%nat \/ (exists raw, observation raw = Ok x) ->
  exists y x',
    reverse_observation x = Ok y
    /\ length y = 6%nat
    /\ Numpy.slice 0 3 y ++ Numpy.slice_from 4 y = zip_with Qmult x obs_max
    /\ (exists p3 p4,
          y !! 4%nat = Some p3 /\ y !! 5%nat = Some p4 /\ y !! 3%nat = Some (p3 + p4)%Q)
    /\ observation y = Ok x'
    /\ x' = zip_with Qdiv (Numpy.slice 0 3 y ++ Numpy.slice_from 4 y) obs_max
    /\ (forall v : Q, observation (<[3%nat := v]> y) = Ok x')
    /\ Forall2 Qeq x' x.
Proof.
  intros Hx.
  assert (Hlen : length x = 5%nat).
  { destruct Hx as [Hlen|[raw Hraw]]; [exact Hlen|]. by apply (observation_length raw). }
  apply length_five in Hlen. destruct Hlen as (a & b & c & d & e & ->).
  eexists _, _. rewrite reverse_observation_five.
  split; [reflexivity|]. split; [reflexivity|]. split; [reflexivity|].
  split; [by eexists _, _|].
  rewrite observation_six.
  split; [reflexivity|]. split; [reflexivity|]. split; [reflexivity|].
  repeat constructor; field.
Qed.

Lemma observation_reverse_observation_witness :
  let x := [20 / 50; 21 / 50; 22 / 50; 30000 / 100000; 20000 / 100000]%Q in
  exists y x',
    reverse_observation x = Ok y
    /\ length y = 6%nat
    /\ Numpy.slice 0 3 y ++ Numpy.slice_from 4 y = zip_with Qmult x obs_max
    /\ (exists p3 p4,
          y !! 4%nat = Some p3 /\ y !! 5%nat = Some p4 /\ y !! 3%nat = Some (p3 + p4)%Q)
    /\ observation y = Ok x'
    /\ x' = zip_with Qdiv (Numpy.slice 0 3 y ++ Numpy.slice_from 4 y) obs_max
    /\ (forall v : Q, observation (<[3%nat := v]> y) = Ok x')
    /\ Forall2 Qeq x' x.
Proof.
  intros x.
  apply (observation_reverse_observation x).
  right. exists [20; 21; 22; 50000; 30000; 20000]%Q. reflexivity.
Defined.

End ObsWrapperFacts.

Section BatchInverseFacts.
Import EnergyPlusObsWrapper.

Lemma expand_length {A : Type} (l : list A) : Torch.expand (length l) l = l.
Proof. by destruct l as [|a [|b l]]. Qed.

Lemma bshape_one_r (n : nat) : Torch.bshape n 1 = Some n.
Proof. by destruct n as [|[|n]]. Qed.

Lemma bshape_five (c : nat) :
  Torch.bshape c 5 = if ((c =? 5) || (c =? 1))%nat then Some 5%nat else None.
Proof. by do 6 (destruct c as [|c]; [reflexivity|]). Qed.

Lemma zip_with_replicate_same {A B C : Type} (f : A -> B -> C) (l : list A) (c : B) :
  zip_with f l (replicate (length l) c) = map (fun r => f r c) l.
Proof. induction l as [|a l IH]; [reflexivity|]. cbn. by rewrite IH. Qed.

Lemma mul_obs_max_tensor (t : Torch.tensor2) :
  Torch.mul t obs_max_tensor
  = if ((Torch.ncols t =? 5) || (Torch.ncols t =? 1))%nat
    then Ok {| Torch.ncols := 5; Torch.trows := map scaled_row (Torch.trows t) |}
    else Raise RuntimeError.
Proof.
  unfold Torch.mul. cbn [obs_max_tensor Torch.unsqueeze0 Torch.trows Torch.ncols length].
  change (length obs_max) with 5%nat.
  rewrite bshape_one_r, bshape_five.
  destruct ((Torch.ncols t =? 5) || (Torch.ncols t =? 1))%nat; [|reflexivity].
  rewrite expand_length. cbn [Torch.expand].
  by rewrite zip_with_replicate_same.
Qed.

Lemma batch_rows_assembled (rows : list (list Q)) :
  zip_with app (map (Numpy.slice 0 3) rows)
    (zip_with app
       (zip_with (zip_with Qplus) (map (Numpy.slice 3 4) rows) (map (Numpy.slice 4 5) rows))
       (map (Numpy.slice_from 3) rows))
  = map assembled_row rows.
Proof. induction rows as [|r rows IH]; [reflexivity|]. cbn. by rewrite IH. Qed.

Lemma reverse_observation_batch_tensor_eq (t : Torch.tensor2) :
  reverse_observation_batch_tensor t
  = if ((Torch.ncols t =? 5) || (Torch.ncols t =? 1))%nat
    then Ok {| Torch.ncols := 6;
               Torch.trows := map (fun r => assembled_row (scaled_row r)) (Torch.trows t) |}
    else Raise RuntimeError.
Proof.
  unfold reverse_observation_batch_tensor. rewrite mul_obs_max_tensor.
  destruct ((Torch.ncols t =? 5) || (Torch.ncols t =? 1))%nat; [|reflexivity].
  cbn [mbind result_bind]. unfold Torch.add, Torch.cat3.
  cbn [Torch.cols Torch.cols_from Torch.ncols Torch.trows].
  rewrite !length_map, !Nat.eqb_refl. cbn [andb Nat.min Nat.sub Nat.eqb].
  cbn [mbind result_bind Torch.ncols Torch.trows].
  rewrite length_zip_with, !length_map.
  rewrite Nat.min_id, !Nat.eqb_refl. cbn [andb Nat.add].
  rewrite batch_rows_assembled, map_map. reflexivity.
Qed.

Lemma reverse_observation_row (r : list Q) :
  length r = 5%nat \/ length r = 1%nat ->
  reverse_observation r = Ok (assembled_row (scaled_row r)).
Proof.
  intros [Hr|Hr].
  - apply length_five in Hr. by destruct Hr as (a & b & c & d & e & ->).
  - destruct r as [|a [|b r]]; try discriminate. reflexivity.
Qed.

Lemma reverse_observation_bad_shape (r : list Q) :
  length r <> 5%nat -> length r <> 1%nat ->
  reverse_observation r = Raise ValueError.
Proof.
  intros H5 H1. unfold reverse_observation, Numpy.broadcast.
  destruct (Nat.eqb_spec (length r) (length obs_max)) as [Heq|_]; [done|].
  by destruct r as [|a [|b r]].
Qed.

(** C7: on a batch of normalized observations (a well-formed 2-D tensor),
    every row of the result of [reverse_observation_batch_tensor] is exactly
    the result of [reverse_observation] on the corresponding input row, and
    the batched transform fails only where the single-sample transform
    fails on every row. *)
Theorem reverse_observation_batch_rowwise (t : Torch.tensor2) :
  Torch.well_formed t ->
  match reverse_observation_batch_tensor t with
  | Ok t' =>
      Torch.well_formed t'
      /\ Forall2 (fun r r' => reverse_observation r = Ok r') (Torch.trows t) (Torch.trows t')
  | Raise _ =>
      Forall (fun r => exists e, reverse_observation r = Raise e) (Torch.trows t)
  end.
Proof.
  intros Hwf. rewrite reverse_observation_batch_tensor_eq.
  destruct ((Torch.ncols t =? 5) || (Torch.ncols t =? 1))%nat eqn:Hc.
  - assert (Hrows : Forall (fun r => length r = 5%nat \/ length r = 1%nat) (Torch.trows t)).
    { eapply Forall_impl; [exact Hwf|]. intros r ->.
      apply orb_true_iff in Hc as [Hc|Hc]; apply Nat.eqb_eq in Hc; auto. }
    split.
    + unfold Torch.well_formed. cbn [Torch.trows Torch.ncols].
      apply Forall_forall. intros r' Hin. apply list_elem_of_In, in_map_iff in Hin.
      destruct Hin as (r & <- & Hin).
      rewrite Forall_forall in Hrows. apply list_elem_of_In, Hrows in Hin.
      destruct Hin as [Hr|Hr].
      * apply length_five in Hr. by destruct Hr as (a & b & c & d & e & ->).
      * destruct r as [|a [|b r]]; try discriminate. reflexivity.
    + cbn [Torch.trows]. induction Hrows as [|r rows Hr _ IH]; cbn; constructor; auto.
      by apply reverse_observation_row.
  - apply orb_false_iff in Hc as [H5 H1].
    apply Nat.eqb_neq in H5, H1.
    eapply Forall_impl; [exact Hwf|]. intros r Hr. exists ValueError.
    apply reverse_observation_bad_shape; congruence.
Qed.

Lemma reverse_observation_batch_rowwise_witness :
  match reverse_observation_batch_tensor
          {| Torch.ncols := 5;
             Torch.trows := [[1 # 2; 1 # 4; 0; 3 # 10; 1 # 5]; [0; 0; 0; 1; 1]]%Q |} with
  | Ok t' =>
      Torch.well_formed t'
      /\ Forall2 (fun r r' => reverse_observation r = Ok r')
           [[1 # 2; 1 # 4; 0; 3 # 10; 1 # 5]; [0; 0; 0; 1; 1]]%Q (Torch.trows t')
  | Raise _ =>
      Forall (fun r => exists e, reverse_observation r = Raise e)
        [[1 # 2; 1 # 4; 0; 3 # 10; 1 # 5]; [0; 0; 0; 1; 1]]%Q
  end.
Proof.
  apply (reverse_observation_batch_rowwise
           {| Torch.ncols := 5;
              Torch.trows := [[1 # 2; 1 # 4; 0; 3 # 10; 1 # 5]; [0; 0; 0; 1; 1]]%Q |}).
  repeat constructor.
Defined.

End BatchInverseFacts.

(** ** Episode segmentation *)

Section BoxFacts.

Lemma Box_contains_components (low high : Q) (n : nat) (x : list Q) :
  Gym.Box_contains low high n x = true ->
  Forall (fun v => (low <= v)%Q /\ (v <= high)%Q) x.
Proof.
  unfold Gym.Box_contains. rewrite !andb_true_iff, !forallb_forall.
  intros [[_ Hlow] Hhigh]. apply Forall_forall. intros v Hv.
  apply list_elem_of_In in Hv. split.
  - apply Qle_bool_iff. by apply Hlow.
  - apply Qle_bool_iff. by apply Hhigh.
Qed.

Lemma Box_contains_out_of_bound (n : nat) (x : list Q) :
  Exists (fun v => (1 < v)%Q \/ (v < -1)%Q) x ->
  Gym.Box_contains (-1) 1 n x = false.
Proof.
  intros Hex. destruct (Gym.Box_contains (-1) 1 n x) eqn:Hc; [|reflexivity].
  apply Box_contains_components in Hc.
  apply Exists_exists in Hex as (v & Hv & Hout).
  rewrite Forall_forall in Hc. destruct (Hc v Hv) as [Hlo Hhi].
  destruct Hout as [Hout|Hout].
  - exfalso. by apply (Qlt_not_le _ _ Hout).
  - exfalso. by apply (Qlt_not_le _ _ Hout).
Qed.

End BoxFacts.

Section SegmenterFacts.
Context {E : Type} `{GymEnv E}.
Import EnergyPlusWrapper.

(** C8: an action with a component strictly above 1 or strictly below -1
    makes [step] raise [AssertionError]: no result is returned and nothing
    is clamped. *)
Theorem step_rejects_out_of_bound (action : list Q) (self : t) (w : world E) :
  Exists (fun v => (1 < v)%Q \/ (v < -1)%Q) action ->
  (step action self w).1 = Raise AssertionError.
Proof.
  intros Hex. unfold step.
  by rewrite (Box_contains_out_of_bound _ _ Hex).
Qed.

(** C10: when the bounds check of [step] fails, the call raises before the
    inner [step] is invoked: the simulator and its call log are as before and
    [current_steps], [true_done] and [last_obs] keep their values. *)
Theorem step_rejection_is_atomic (action : list Q) (self : t) (w : world E) :
  Gym.Box_contains (-1) 1 (shape self) action = false ->
  (step action self w).1 = Raise AssertionError
  /\ (step action self w).2.2 = w
  /\ calls (step action self w).2.2 = calls w
  /\ sim (step action self w).2.2 = sim w
  /\ current_steps (step action self w).2.1 = current_steps self
  /\ true_done (step action self w).2.1 = true_done self
  /\ last_obs (step action self w).2.1 = last_obs self.
Proof. intros Hc. unfold step. rewrite Hc. cbn. done. Qed.

(** The only [AssertionError] of [step] is the bounds check. *)
Lemma step_assertion_error_inv (action : list Q) (self : t) (w : world E) :
  (step action self w).1 = Raise AssertionError ->
  Gym.Box_contains (-1) 1 (shape self) action = false.
Proof.
  unfold step. destruct (Gym.Box_contains _ _ _ _); [|done]. cbn.
  destruct (inner_step w action) as [[[[o r] done] info] w1].
  destruct done; [done|].
  destruct (read_current_steps _ _) as [c|]; [|done]. cbn.
  destruct (c + 1 =? max_steps self); [done|].
  by destruct (c + 1 <? max_steps self).
Qed.

(** A [step] whose action is in bounds and whose inner transition is not
    terminal, taken inside the segment. *)
Lemma step_inside_segment (action : list Q) (self : t) (w : world E) (c : Z) :
  Gym.Box_contains (-1) 1 (shape self) action = true ->
  done_of (env_step (sim w) action).1 = false ->
  current_steps self = Some c ->
  c + 1 <= max_steps self ->
  step action self w
  = let tr := (env_step (sim w) action).1 in
    (Ok (Some (obs_of tr), reward_of tr, c + 1 =? max_steps self,
         <["true_done" := PyBool false]> (info_of tr)),
     (set_current_steps (set_last_obs self (obs_of tr)) (c + 1),
      (inner_step w action).2)).
Proof.
  intros Hc Hd Hcur Hle. unfold step, inner_step. rewrite Hc.
  destruct (env_step (sim w) action) as [[[[o r] d] info] e'].
  cbn in Hd |- *. subst d. unfold read_current_steps. cbn. rewrite Hcur.
  destruct (Z.eqb_spec (c + 1) (max_steps self)) as [Heq|Hne]; [reflexivity|].
  destruct (Z.ltb_spec (c + 1) (max_steps self)) as [Hlt|Hge]; [reflexivity|lia].
Qed.

Lemma steps_inside_segment (actions : list (list Q)) :
  forall (self : t) (w : world E) (c : Z),
    (forall e a, done_of (env_step e a).1 = false) ->
    current_steps self = Some c ->
    c + Z.of_nat (length actions) <= max_steps self ->
    Forall (fun a => Gym.Box_contains (-1) 1 (shape self) a = true) actions ->
    length (steps actions self w).1 = length actions
    /\ (forall (i : nat) (out : result outcome),
          (steps actions self w).1 !! i = Some out ->
          exists o r info,
            out = Ok (o, r, c + Z.of_nat i + 1 =? max_steps self, info)
            /\ info !! "true_done" = Some (PyBool false))
    /\ true_done (steps actions self w).2.1 = true_done self
    /\ current_steps (steps actions self w).2.1 = Some (c + Z.of_nat (length actions)).
Proof.
  induction actions as [|a actions IH]; intros self w c Hnever Hcur Hle Hin.
  - cbn. repeat split; [|by rewrite Z.add_0_r]. intros i out Hi. by destruct i.
  - cbn [length] in Hle. apply Forall_cons in Hin as [Ha Hin]. cbn [steps].
    rewrite (step_inside_segment a self w c Ha (Hnever _ _) Hcur) by lia.
    cbv zeta.
    set (tr := (env_step (sim w) a).1).
    set (self1 := set_current_steps (set_last_obs self (obs_of tr)) (c + 1)).
    set (w1 := (inner_step w a).2).
    specialize (IH self1 w1 (c + 1) Hnever eq_refl).
    destruct IH as (Hlen & Hout & Htd & Hcs); [cbn; lia|exact Hin|].
    destruct (steps actions self1 w1) as [outs [self2 w2]]. cbn in Hlen, Hout, Htd, Hcs |- *.
    repeat split.
    + by rewrite Hlen.
    + intros [|i] out Hi.
      * injection Hi as <-. eexists _, _, _. split.
        -- by rewrite Z.add_0_r.
        -- apply lookup_insert_eq.
      * cbn in Hi. apply Hout in Hi as (o & r & info & -> & Hinfo).
        exists o, r, info. split; [|exact Hinfo].
        by replace (c + Z.of_nat (S i) + 1) with (c + 1 + Z.of_nat i + 1) by lia.
    + exact Htd.
    + rewrite Hcs. f_equal. lia.
Qed.

(** What [reset] leaves behind, whatever the state it starts from. *)
Lemma reset_state (kwargs : pydict) (self : t) (w : world E) :
  current_steps (reset kwargs self w).2.1 = Some 0
  /\ true_done (reset kwargs self w).2.1 = false
  /\ max_steps (reset kwargs self w).2.1 = max_steps self
  /\ shape (reset kwargs self w).2.1 = shape self.
Proof.
  unfold reset, inner_reset. destruct (true_done self) eqn:Htd.
  - by destruct (env_reset (sim w) kwargs) as [o e'].
  - done.
Qed.

(** C2: with [max_steps = M > 0] and an inner simulation that never reports
    termination, the [M] in-bound [step] calls that follow a [reset] all
    return; the first [M - 1] return [done = False] and the [M]-th returns
    [done = True], every one of them with [info['true_done'] = False], and
    the [true_done] flag stays unset. *)
Theorem segment_ends_after_max_steps
    (M : Z) (actions : list (list Q)) (kwargs : pydict) (self : t) (w : world E) :
  max_steps self = M ->
  0 < M ->
  (forall e a, done_of (env_step e a).1 = false) ->
  Z.of_nat (length actions) = M ->
  Forall (fun a => Gym.Box_contains (-1) 1 (shape self) a = true) actions ->
  let start := (reset kwargs self w).2 in
  let run := steps actions start.1 start.2 in
  Z.of_nat (length run.1) = M
  /\ (forall (i : nat) (out : result outcome),
        run.1 !! i = Some out ->
        exists o r info,
          out = Ok (o, r, Z.of_nat i + 1 =? M, info)
          /\ info !! "true_done" = Some (PyBool false))
  /\ true_done run.2.1 = false.
Proof.
  intros HM Hpos Hnever Hlen Hin start run.
  destruct (reset_state kwargs self w) as (Hcs & Htd & Hmax & Hshape).
  fold start in Hcs, Htd, Hmax, Hshape.
  destruct (steps_inside_segment actions start.1 start.2 0 Hnever Hcs)
    as (Hl & Hout & Htd' & _).
  - rewrite Hmax. lia.
  - by rewrite Hshape.
  - fold run in Hl, Hout, Htd'. repeat split.
    + by rewrite Hl.
    + intros i out Hi. apply Hout in Hi as (o & r & info & -> & Hinfo).
      exists o, r, info. split; [|exact Hinfo]. by rewrite Hmax, HM.
    + by rewrite Htd'.
Qed.

(** C6: [reset] calls the inner [reset] exactly when [true_done] is set,
    which is the case in a freshly constructed wrapper; it then stores and
    returns the fresh inner observation.  Otherwise the simulator and its
    call log are untouched and the stored observation is returned.  Either
    way [current_steps] becomes 0. *)
Theorem reset_resets_inner_iff_true_done (kwargs : pydict) (self : t) (w : world E) :
  current_steps (reset kwargs self w).2.1 = Some 0
  /\ (calls (reset kwargs self w).2.2 = calls w ++ [CallReset kwargs]
      <-> true_done self = true)
  /\ (calls (reset kwargs self w).2.2 = calls w <-> true_done self = false)
  /\ (if true_done self
      then (reset kwargs self w).2.2 = (inner_reset w kwargs).2
           /\ last_obs (reset kwargs self w).2.1 = Some (env_reset (sim w) kwargs).1
           /\ (reset kwargs self w).1 = Some (env_reset (sim w) kwargs).1
      else (reset kwargs self w).2.2 = w
           /\ last_obs (reset kwargs self w).2.1 = last_obs self
           /\ (reset kwargs self w).1 = last_obs self)
  /\ (forall (n : nat) (M : Z) (fresh : t),
        __init__ n M = Ok fresh -> true_done fresh = true).
Proof.
  split; [apply reset_state|].
  assert (Hne : calls w ++ [CallReset kwargs] <> calls w).
  { intros Heq. apply (f_equal length) in Heq. rewrite length_app in Heq. cbn in Heq. lia. }
  assert (Hfresh : forall (n : nat) (M : Z) (fresh : t),
             __init__ n M = Ok fresh -> true_done fresh = true).
  { intros n M fresh. unfold __init__. destruct (0 <? M); [|done]. by intros [= <-]. }
  unfold reset, inner_reset. destruct (true_done self) eqn:Htd.
  - destruct (env_reset (sim w) kwargs) as [o e']. cbn.
    repeat split; try done.
  - cbn. repeat split; done.
Qed.

(** C5: when the inner [step] reports [done = True], whatever
    [current_steps] is (unset, below or beyond [max_steps]), [step] sets the
    [true_done] flag and returns the inner observation and reward with
    [done = True] and [info['true_done'] = True]; the [reset] that follows
    calls the inner [reset] and returns its observation. *)
Theorem true_termination_propagates
    (action : list Q) (kwargs : pydict) (self : t) (w : world E) :
  Gym.Box_contains (-1) 1 (shape self) action = true ->
  done_of (env_step (sim w) action).1 = true ->
  let tr := (env_step (sim w) action).1 in
  let after := (step action self w).2 in
  (step action self w).1
  = Ok (Some (obs_of tr), reward_of tr, true,
        <["true_done" := PyBool true]> (info_of tr))
  /\ (<["true_done" := PyBool true]> (info_of tr) : pydict) !! "true_done"
     = Some (PyBool true)
  /\ true_done after.1 = true
  /\ current_steps after.1 = current_steps self
  /\ after.2 = (inner_step w action).2
  /\ calls (reset kwargs after.1 after.2).2.2
     = calls w ++ [CallStep action; CallReset kwargs]
  /\ (reset kwargs after.1 after.2).2.2 = (inner_reset after.2 kwargs).2
  /\ (reset kwargs after.1 after.2).1 = Some (env_reset (sim after.2) kwargs).1.
Proof.
  intros Hc Hd tr after.
  assert (Hstep : step action self w
                  = (Ok (Some (obs_of tr), reward_of tr, true,
                         <["true_done" := PyBool true]> (info_of tr)),
                     (set_true_done (set_last_obs self (obs_of tr)) true,
                      (inner_step w action).2))).
  { unfold step, inner_step, tr. rewrite Hc.
    destruct (env_step (sim w) action) as [[[[o r] d] info] e'].
    cbn in Hd |- *. by subst d. }
  subst after. rewrite Hstep. cbn [fst snd].
  split; [reflexivity|]. split; [apply lookup_insert_eq|].
  split; [reflexivity|]. split; [reflexivity|]. split; [reflexivity|].
  unfold reset. cbn [true_done set_true_done].
  unfold inner_reset, inner_step.
  destruct (env_step (sim w) action) as [tr' e1]. cbn [snd sim calls].
  destruct (env_reset e1 kwargs) as [o2 e2]. cbn.
  split; [by rewrite <- app_assoc|done].
Qed.

End SegmenterFacts.

(** *** The segmenter on the scripted simulators *)

Section SegmenterRuns.
Import EnergyPlusWrapper.

Lemma segment_ends_after_max_steps_witness :
  let actions := [[0; 0; 0; 0]; [1; -1; 1 # 2; 0]; [-1; -1; -1; -1]]%Q in
  let start := (reset ∅ constructed Endless.fresh).2 in
  let run := steps actions start.1 start.2 in
  Z.of_nat (length run.1) = 3
  /\ (forall (i : nat) (out : result outcome),
        run.1 !! i = Some out ->
        exists o r info,
          out = Ok (o, r, Z.of_nat i + 1 =? 3, info)
          /\ info !! "true_done" = Some (PyBool false))
  /\ true_done run.2.1 = false.
Proof.
  apply (segment_ends_after_max_steps 3
           [[0; 0; 0; 0]; [1; -1; 1 # 2; 0]; [-1; -1; -1; -1]]%Q
           ∅ constructed Endless.fresh).
  - reflexivity.
  - lia.
  - intros e a. reflexivity.
  - reflexivity.
  - repeat constructor.
Defined.

Lemma true_termination_propagates_witness :
  let self := set_current_steps constructed 0 in
  let w := Scripted.fresh 1 2 in
  let action := [0; 1; -1; 1 # 2]%Q in
  let w1 := (step action self w).2.2 in
  let tr := (env_step (sim w1) action).1 in
  let after := (step action (step action self w).2.1 w1).2 in
  (step action (step action self w).2.1 w1).1
  = Ok (Some (obs_of tr), reward_of tr, true,
        <["true_done" := PyBool true]> (info_of tr))
  /\ (<["true_done" := PyBool true]> (info_of tr) : pydict) !! "true_done"
     = Some (PyBool true)
  /\ true_done after.1 = true
  /\ current_steps after.1 = current_steps (step action self w).2.1
  /\ after.2 = (inner_step w1 action).2
  /\ calls (reset ∅ after.1 after.2).2.2
     = calls w1 ++ [CallStep action; CallReset ∅]
  /\ (reset ∅ after.1 after.2).2.2 = (inner_reset after.2 ∅).2
  /\ (reset ∅ after.1 after.2).1 = Some (env_reset (sim after.2) ∅).1.
Proof.
  intros self w action w1.
  apply (true_termination_propagates action ∅ (step action self w).2.1 w1).
  - reflexivity.
  - reflexivity.
Defined.

Lemma step_rejects_out_of_bound_witness :
  (step [0; 3 # 2; 0; 0]%Q (set_current_steps constructed 0) Endless.fresh).1
  = Raise AssertionError.
Proof.
  apply (step_rejects_out_of_bound [0; 3 # 2; 0; 0]%Q).
  apply Exists_cons_tl, Exists_cons_hd. left. reflexivity.
Defined.

Lemma step_rejection_is_atomic_witness :
  let action := [0; 0; -2; 0]%Q in
  let self := set_current_steps constructed 1 in
  let w := Scripted.fresh 3 10 in
  (step action self w).1 = Raise AssertionError
  /\ (step action self w).2.2 = w
  /\ calls (step action self w).2.2 = calls w
  /\ sim (step action self w).2.2 = sim w
  /\ current_steps (step action self w).2.1 = current_steps self
  /\ true_done (step action self w).2.1 = true_done self
  /\ last_obs (step action self w).2.1 = last_obs self.
Proof.
  intros action self w.
  apply (step_rejection_is_atomic action self w).
  reflexivity.
Defined.

End SegmenterRuns.

(** ** Action quantisation *)

Section QuantizerFacts.
Import EnergyPlusDiscreteActionWrapper.

Lemma lookup_map {A B : Type} (f : A -> B) (l : list A) (i : nat) :
  map f l !! i = f <$> (l !! i).
Proof.
  revert i. induction l as [|a l IH]; intros [|i]; cbn; try reflexivity. apply IH.
Qed.

Lemma arange_length (num : Z) : length (Numpy.arange num) = Z.to_nat num.
Proof. unfold Numpy.arange. by rewrite length_map, length_seq. Qed.

Lemma arange_lookup (num : Z) (j : nat) :
  (j < Z.to_nat num)%nat -> Numpy.arange num !! j = Some (Z.of_nat j).
Proof.
  intros Hj. unfold Numpy.arange. rewrite lookup_map, lookup_seq_lt by exact Hj.
  reflexivity.
Qed.

Lemma linspace_length (start stop : Q) (num : Z) (table : list Q) :
  Numpy.linspace start stop num = Ok table -> length table = Z.to_nat num.
Proof.
  unfold Numpy.linspace. destruct (num <? 0); [done|]. intros [= <-].
  destruct (1 <? num); rewrite ?length_insert, length_map; apply arange_length.
Qed.

(** The entries of the action table: [num_levels] evenly spaced points from
    -1 to 1. *)
Lemma linspace_entries (num : Z) (table : list Q) (j : nat) :
  Numpy.linspace (-1) 1 num = Ok table ->
  (j < Z.to_nat num)%nat ->
  exists x,
    table !! j = Some x
    /\ (x == -1 + inject_Z (Z.of_nat j) * (2 / inject_Z (num - 1)))%Q.
Proof.
  unfold Numpy.linspace. destruct (Z.ltb_spec num 0) as [|Hnum]; [done|].
  intros [= <-] Hj.
  set (step := ((1 - -1) / inject_Z (num - 1))%Q).
  set (y := map (fun i => (inject_Z i * step + -1)%Q) (Numpy.arange num)).
  assert (Hy : y !! j = Some (inject_Z (Z.of_nat j) * step + -1)%Q).
  { unfold y. by rewrite lookup_map, arange_lookup. }
  assert (Hstep : (step == 2 / inject_Z (num - 1))%Q) by reflexivity.
  destruct (Z.ltb_spec 1 num) as [Hgt|Hle].
  - destruct (decide (Z.to_nat (num - 1) = j)) as [<-|Hne].
    + exists 1%Q. split.
      * apply list_lookup_insert_eq. unfold y. rewrite length_map, arange_length. lia.
      * rewrite Z2Nat.id by lia. field.
        intros Hz. unfold Qeq in Hz. cbn in Hz. lia.
    + eexists. split.
      * rewrite list_lookup_insert_ne by exact Hne. exact Hy.
      * rewrite Hstep. ring.
  - eexists. split; [exact Hy|]. rewrite Hstep. ring.
Qed.

Lemma digit_range (num_levels action : Z) (i : nat) :
  0 < num_levels -> 0 <= digit num_levels action i < num_levels.
Proof. intros Hn. unfold digit. by apply Z.mod_pos_bound. Qed.

Lemma digit_succ (num_levels action : Z) (i : nat) :
  0 < num_levels ->
  digit num_levels (action / num_levels) i = digit num_levels action (S i).
Proof.
  intros Hn. unfold digit.
  rewrite Zdiv_Zdiv by (try apply Z.pow_nonneg; lia).
  rewrite Nat2Z.inj_succ, Z.pow_succ_r by lia. reflexivity.
Qed.

Lemma quotient_step (num_levels action : Z) :
  0 < num_levels -> (action - action mod num_levels) / num_levels = action / num_levels.
Proof.
  intros Hn. rewrite (Z.div_mod action num_levels) at 1 by lia.
  replace (num_levels * (action / num_levels) + action mod num_levels - action mod num_levels)
    with (action / num_levels * num_levels) by lia.
  apply Z.div_mul. lia.
Qed.

(** The loop of [action] computes the mixed-radix digits. *)
Lemma decompose_digits (dims : nat) (num_levels : Z) :
  0 < num_levels ->
  forall action : Z,
    decompose dims num_levels action = Ok (map (digit num_levels action) (seq 0 dims)).
Proof.
  intros Hn. induction dims as [|dims IH]; intros action; [reflexivity|].
  cbn [decompose]. destruct (Z.eqb_spec num_levels 0) as [|_]; [lia|].
  rewrite quotient_step, IH by exact Hn. cbn [mbind result_bind mret result_ret seq map].
  f_equal. f_equal.
  - unfold digit. cbn. by rewrite Z.div_1_r.
  - rewrite <- seq_shift, map_map. apply map_ext. intros i. by apply digit_succ.
Qed.

(** Distinct indices below [num_levels ^ dims] have distinct digit tuples. *)
Lemma decompose_injective (dims : nat) (num_levels : Z) :
  0 < num_levels ->
  forall a b : Z,
    0 <= a < num_levels ^ Z.of_nat dims ->
    0 <= b < num_levels ^ Z.of_nat dims ->
    decompose dims num_levels a = decompose dims num_levels b ->
    a = b.
Proof.
  intros Hn. induction dims as [|dims IH]; intros a b Ha Hb Heq.
  - cbn in Ha, Hb. lia.
  - rewrite Nat2Z.inj_succ, Z.pow_succ_r in Ha, Hb by lia.
    cbn [decompose] in Heq. destruct (Z.eqb_spec num_levels 0) as [|_]; [lia|].
    rewrite !quotient_step in Heq by exact Hn.
    rewrite !decompose_digits in Heq by exact Hn.
    cbn [mbind result_bind mret result_ret] in Heq.
    injection Heq as Hmod Hrest.
    assert (Hquot : a / num_levels = b / num_levels).
    { apply IH.
      - split; [apply Z.div_pos; lia|apply Z.div_lt_upper_bound; lia].
      - split; [apply Z.div_pos; lia|apply Z.div_lt_upper_bound; lia].
      - rewrite !decompose_digits by exact Hn. by rewrite Hrest. }
    rewrite (Z.div_mod a num_levels), (Z.div_mod b num_levels) by lia.
    by rewrite Hmod, Hquot.
Qed.

(** Indexing the table with in-range indices. *)
Lemma take_indices_in_range (table : list Q) (indices : list Z) :
  Forall (fun d => 0 <= d < Z.of_nat (length table)) indices ->
  exists v,
    Numpy.take_indices table indices = Ok v
    /\ length v = length indices
    /\ forall (i : nat) (d : Z), indices !! i = Some d -> v !! i = table !! Z.to_nat d.
Proof.
  induction 1 as [|d indices Hd _ (v & Hv & Hlen & Hnth)].
  - exists []. repeat split. intros i d Hi. by destruct i.
  - destruct (lookup_lt_is_Some_2 table (Z.to_nat d)) as [x Hx]; [lia|].
    exists (x :: v). cbn [Numpy.take_indices]. unfold Numpy.getitem_int, Numpy.getitem.
    destruct (Z.leb_spec 0 d); [|lia]. destruct (Z.ltb_spec d (Z.of_nat (length table))); [|lia].
    cbn [andb]. rewrite Hx, Hv. cbn. repeat split.
    + by rewrite Hlen.
    + intros [|i] d' Hi; cbn in Hi |- *.
      * injection Hi as <-. by rewrite Hx.
      * by apply Hnth.
Qed.

Lemma init_fields (n : nat) (levels : Z) (self : t) :
  __init__ n levels = Ok self ->
  0 <= levels
  /\ space_n self = levels ^ Z.of_nat n
  /\ num_levels self = levels
  /\ dims self = n
  /\ Numpy.linspace (-1) 1 levels = Ok (action_table self).
Proof.
  unfold __init__. destruct (levels ^ Z.of_nat n <? 0); [done|].
  destruct (Numpy.linspace (-1) 1 levels) as [table|e] eqn:Htable; [|done].
  intros [= <-]. cbn. repeat split.
  unfold Numpy.linspace in Htable. destruct (Z.ltb_spec levels 0); [done|lia].
Qed.

(** C9: for an index with [0 <= index < num_levels ^ dims], [action]
    returns a vector of length [dims]; the loop yields the mixed-radix
    digits of the index in base [num_levels], least significant digit at
    dimension 0, and component [i] of the vector is the table entry selected
    by digit [i], the table being [num_levels] evenly spaced points from -1
    to 1.  Distinct indices of the range have distinct digit tuples. *)
Theorem action_is_mixed_radix_lookup (n : nat) (levels : Z) (self : t) (index : Z) :
  __init__ n levels = Ok self ->
  0 <= index < levels ^ Z.of_nat n ->
  exists v,
    action self index = Ok v
    /\ length v = n
    /\ decompose n levels index = Ok (map (digit levels index) (seq 0 n))
    /\ (forall i : nat,
          (i < n)%nat ->
          0 <= digit levels index i < levels
          /\ exists x,
              v !! i = Some x
              /\ action_table self !! Z.to_nat (digit levels index i) = Some x
              /\ (x == -1 + inject_Z (digit levels index i) * (2 / inject_Z (levels - 1)))%Q)
    /\ (forall index' : Z,
          0 <= index' < levels ^ Z.of_nat n ->
          index' <> index ->
          decompose n levels index' <> decompose n levels index).
Proof.
  intros Hinit Hrange.
  destruct (init_fields n levels self Hinit) as (Hlev & Hspace & Hnum & Hdims & Htable).
  assert (Hcontains : Gym.Discrete_contains (space_n self) index = true).
  { unfold Gym.Discrete_contains. rewrite Hspace.
    apply andb_true_iff. split; [apply Z.leb_le|apply Z.ltb_lt]; lia. }
  unfold action. rewrite Hcontains, Hdims, Hnum. cbn [negb].
  destruct n as [|n].
  - exists []. cbn. repeat split; lia.
  - assert (Hpos : 0 < levels).
    { destruct (Z.eq_dec levels 0) as [->|]; [|lia].
      rewrite Z.pow_0_l in Hrange by lia. lia. }
    rewrite decompose_digits by exact Hpos.
    pose proof (linspace_length _ _ _ _ Htable) as Hlen.
    destruct (take_indices_in_range (action_table self)
                (map (digit levels index) (seq 0 (S n)))) as (v & Hv & Hvlen & Hnth).
    { apply Forall_forall. intros d Hd. apply list_elem_of_In, in_map_iff in Hd.
      destruct Hd as (i & <- & _). rewrite Hlen, Z2Nat.id by lia. by apply digit_range. }
    exists v. cbn [mbind result_bind]. split; [exact Hv|].
    split; [by rewrite Hvlen, length_map, length_seq|].
    split; [reflexivity|]. split.
    + intros i Hi. pose proof (digit_range levels index i Hpos) as Hd.
      split; [exact Hd|].
      destruct (linspace_entries levels (action_table self)
                  (Z.to_nat (digit levels index i)) Htable) as (x & Hx & Hval); [lia|].
      exists x. split; [|split; [exact Hx|]].
      * rewrite <- Hx. apply Hnth. rewrite lookup_map, lookup_seq_lt by exact Hi.
        reflexivity.
      * rewrite Hval, Z2Nat.id by lia. reflexivity.
    + intros index' Hrange' Hne Heq. apply Hne.
      apply (decompose_injective (S n) levels Hpos); [exact Hrange'|exact Hrange|].
      by rewrite Heq, decompose_digits.
Qed.

(** C3: [reverse_action] has no body; on the action vector of every index,
    index 0 of the 4-level, 4-dimensional quantizer included, it returns
    [None] and not the index. *)
Theorem reverse_action_returns_none :
  (forall (self : t) (v : list Q), reverse_action self v = None)
  /\ exists self v,
      __init__ 4 4 = Ok self
      /\ action self 0 = Ok v
      /\ reverse_action self v <> Some 0.
Proof.
  split; [reflexivity|].
  eexists _, _. split; [reflexivity|]. split; [reflexivity|]. discriminate.
Qed.

Lemma action_is_mixed_radix_lookup_witness :
  exists self,
    __init__ 4 4 = Ok self
    /\ exists v,
        action self 27 = Ok v
        /\ length v = 4%nat
        /\ decompose 4 4 27 = Ok (map (digit 4 27) (seq 0 4))
        /\ (forall i : nat,
              (i < 4)%nat ->
              0 <= digit 4 27 i < 4
              /\ exists x,
                  v !! i = Some x
                  /\ action_table self !! Z.to_nat (digit 4 27 i) = Some x
                  /\ (x == -1 + inject_Z (digit 4 27 i) * (2 / inject_Z (4 - 1)))%Q)
        /\ (forall index' : Z,
              0 <= index' < 4 ^ Z.of_nat 4 ->
              index' <> 27 ->
              decompose 4 4 index' <> decompose 4 4 27).
Proof.
  eexists. split; [reflexivity|].
  apply (action_is_mixed_radix_lookup 4 4); [reflexivity|]. cbn. lia.
Defined.

End QuantizerFacts.

(** ** Control-step aggregation *)

Section MeanFacts.

Lemma foldl_Qplus (l : list Q) (a : Q) :
  (foldl Qplus a l == a + fold_right Qplus 0 l)%Q.
Proof.
  revert a. induction l as [|x l IH]; intros a; cbn.
  - ring.
  - rewrite IH. ring.
Qed.

Lemma zip_with_Qplus_lookup (r r' : list Q) (j : nat) :
  length r = length r' ->
  (default 0 (zip_with Qplus r r' !! j) == default 0 (r !! j) + default 0 (r' !! j))%Q.
Proof.
  revert r' j. induction r as [|x r IH]; intros [|y r'] j Hlen; try discriminate.
  - destruct j; cbn [zip_with lookup list_lookup default]; ring.
  - destruct j as [|j]; cbn [zip_with lookup list_lookup default].
    + reflexivity.
    + apply IH. by injection Hlen.
Qed.

Lemma foldl_zip_with_length (rest : list (list Q)) (r : list Q) :
  Forall (fun r' => length r' = length r) rest ->
  length (foldl (zip_with Qplus) r rest) = length r.
Proof.
  revert r. induction rest as [|r' rest IH]; intros r Hall; [reflexivity|].
  apply Forall_cons in Hall as [Hr' Hall]. cbn.
  assert (Hz : length (zip_with Qplus r r') = length r).
  { rewrite length_zip_with. lia. }
  rewrite IH; [exact Hz|].
  eapply Forall_impl; [exact Hall|]. intros r'' ->. by rewrite Hz.
Qed.

Lemma foldl_zip_with_field (rest : list (list Q)) (r : list Q) (j : nat) :
  Forall (fun r' => length r' = length r) rest ->
  (default 0 (foldl (zip_with Qplus) r rest !! j)
   == RepeatAction.field_sum j (r :: rest))%Q.
Proof.
  revert r. induction rest as [|r' rest IH]; intros r Hall.
  - unfold RepeatAction.field_sum. cbn [foldl fold_right]. ring.
  - apply Forall_cons in Hall as [Hr' Hall]. cbn [foldl].
    assert (Hz : length (zip_with Qplus r r') = length r).
    { rewrite length_zip_with. lia. }
    rewrite IH.
    + unfold RepeatAction.field_sum. cbn [fold_right].
      rewrite zip_with_Qplus_lookup by done. ring.
    + eapply Forall_impl; [exact Hall|]. intros r'' ->. by rewrite Hz.
Qed.

(** [np.mean(rows, axis=0)] of rows of one length: defined, of that length,
    and field [j] is the sum of field [j] divided by the number of rows. *)
Lemma mean_axis0_fields (rows : list (list Q)) (d : nat) :
  rows <> [] ->
  Forall (fun r => length r = d) rows ->
  exists m,
    Numpy.mean_axis0 rows = Ok m
    /\ length m = d
    /\ forall (j : nat) (x : Q),
        m !! j = Some x ->
        (x == RepeatAction.field_sum j rows / inject_Z (Z.of_nat (length rows)))%Q.
Proof.
  intros Hne Hall. destruct rows as [|r rest]; [done|].
  apply Forall_cons in Hall as [Hr Hall].
  assert (Hrest : Forall (fun r' => length r' = length r) rest).
  { eapply Forall_impl; [exact Hall|]. intros r' ->. by rewrite Hr. }
  unfold Numpy.mean_axis0.
  assert (Hcheck : forallb (fun r' => (length r' =? length r)%nat) rest = true).
  { apply forallb_forall. intros r' Hin. apply Nat.eqb_eq.
    rewrite Forall_forall in Hrest. by apply Hrest, list_elem_of_In. }
  rewrite Hcheck. eexists. split; [reflexivity|]. split.
  - by rewrite length_map, foldl_zip_with_length.
  - intros j x. rewrite lookup_map.
    destruct (foldl (zip_with Qplus) r rest !! j) as [s|] eqn:Hs; [|done].
    cbn. intros [= <-].
    pose proof (foldl_zip_with_field rest r j Hrest) as Hsum.
    rewrite Hs in Hsum. cbn [default] in Hsum. by rewrite Hsum.
Qed.

Lemma mean_rewards (trs : list transition) :
  (Numpy.mean (map reward_of trs)
   == RepeatAction.reward_sum trs / inject_Z (Z.of_nat (length trs)))%Q.
Proof.
  unfold Numpy.mean, Numpy.sum. rewrite foldl_Qplus, length_map.
  assert (Hsum : (fold_right Qplus 0 (map reward_of trs) == RepeatAction.reward_sum trs)%Q).
  { induction trs as [|tr trs IH]; cbn; [reflexivity|]. by rewrite IH. }
  rewrite Hsum. by rewrite Qplus_0_l.
Qed.

End MeanFacts.

Section AggregatorFacts.
Context {E : Type} `{GymEnv E}.
Import RepeatAction.

Lemma last_cons_default {A : Type} (l : list A) (x a b : A) :
  List.last (x :: l) a = List.last (x :: l) b.
Proof.
  revert x. induction l as [|y l IH]; intros x; [reflexivity|].
  change (List.last (y :: l) a = List.last (y :: l) b). apply IH.
Qed.

Lemma inner_run_succ (k : nat) (action : list Q) (e : E) :
  inner_run (S k) action e
  = ((env_step e action).1 :: (inner_run k action (env_step e action).2).1,
     (inner_run k action (env_step e action).2).2).
Proof.
  cbn [inner_run]. destruct (env_step e action) as [tr e1]. cbn [fst snd].
  by destruct (inner_run k action e1) as [trs e2].
Qed.

Lemma inner_run_length (k : nat) (action : list Q) (e : E) :
  length (inner_run k action e).1 = k.
Proof.
  revert e. induction k as [|k IH]; intros e; [reflexivity|].
  rewrite inner_run_succ. cbn. by rewrite IH.
Qed.

Lemma inner_step_eq (w : world E) (action : list Q) :
  inner_step w action
  = ((env_step (sim w) action).1,
     {| sim := (env_step (sim w) action).2; calls := calls w ++ [CallStep action] |}).
Proof. unfold inner_step. by destruct (env_step (sim w) action). Qed.

Lemma repeat_while_unfold (fuel : nat) (action : list Q) (cur : transition)
    (self : t) (w : world E) :
  repeat_while fuel action cur self w
  = match same_prefix self (obs_of cur) with
    | Raise e => Some (Raise e, (self, w))
    | Ok same =>
        if same && negb (done_of cur) then
          match fuel with
          | O => None
          | S fuel' =>
              repeat_while fuel' action (inner_step w action).1
                (append_sample self (inner_step w action).1) (inner_step w action).2
          end
        else Some (Ok cur, (self, w))
    end.
Proof.
  destruct cur as [[[o r] d] info].
  destruct fuel as [|fuel]; cbn [repeat_while obs_of done_of fst snd]; [reflexivity|].
  by destruct (inner_step w action) as [cur' w'].
Qed.

Lemma same_prefix_continues (self : t) (base : list Q) (cur : transition) :
  last_obs self = Some base ->
  exists same,
    same_prefix self (obs_of cur) = Ok same
    /\ same && negb (done_of cur) = continues base cur.
Proof. intros Hb. unfold same_prefix. rewrite Hb. by eexists. Qed.

(** The loop leaves after [m] further inner steps when the guard holds on
    the first [m] transitions it inspects and fails on the next one. *)
Lemma repeat_while_run (base action : list Q) (m : nat) :
  forall (fuel : nat) (cur : transition) (self : t) (w : world E),
    (m <= fuel)%nat ->
    last_obs self = Some base ->
    Forall (fun tr => continues base tr = true)
           (take m (cur :: (inner_run m action (sim w)).1)) ->
    Forall (fun tr => continues base tr = false)
           (drop m (cur :: (inner_run m action (sim w)).1)) ->
    repeat_while fuel action cur self w
    = Some (Ok (List.last (inner_run m action (sim w)).1 cur),
            ({| last_obs := Some base;
                reward := reward self ++ map reward_of (inner_run m action (sim w)).1;
                obs := obs self ++ map obs_of (inner_run m action (sim w)).1 |},
             {| sim := (inner_run m action (sim w)).2;
                calls := calls w ++ replicate m (CallStep action) |})).
Proof.
  induction m as [|m IH]; intros fuel cur self w Hfuel Hbase Hgo Hstop.
  - rewrite repeat_while_unfold.
    destruct (same_prefix_continues self base cur Hbase) as (same & -> & ->).
    cbn in Hstop. apply Forall_cons in Hstop as [-> _].
    cbn. rewrite !app_nil_r. clear Hgo.
    destruct self as [lo rw ob], w as [s c]. cbn in Hbase |- *. by subst lo.
  - rewrite repeat_while_unfold.
    destruct (same_prefix_continues self base cur Hbase) as (same & -> & ->).
    rewrite inner_run_succ in Hgo, Hstop |- *. cbn [fst snd] in Hgo, Hstop |- *.
    cbn [take] in Hgo. apply Forall_cons in Hgo as [-> Hgo]. cbn [drop] in Hstop.
    destruct fuel as [|fuel]; [lia|].
    rewrite inner_step_eq. cbn [fst snd].
    rewrite (IH fuel); cbn [sim calls]; [|lia|by destruct (env_step (sim w) action) as [[[[? ?] ?] ?] ?]|exact Hgo|exact Hstop].
    destruct (env_step (sim w) action) as [[[[o r] d] info] e1]. cbn.
    rewrite <- !app_assoc. cbn.
    do 3 f_equal.
    destruct (inner_run m action e1).1 as [|tr trs]; [reflexivity|].
    apply last_cons_default.
Qed.

Lemma lookup_last_cons {A : Type} (l : list A) (x : A) :
  (x :: l) !! length l = Some (List.last l x).
Proof.
  revert x. induction l as [|y l IH]; intros x; [reflexivity|].
  cbn [length]. change ((y :: l) !! length l = Some (List.last (y :: l) x)).
  rewrite IH. f_equal. destruct l as [|z l]; [reflexivity|].
  apply (last_cons_default (z :: l) y y x).
Qed.

Lemma step_unfold (fuel : nat) (action : list Q) (self : t) (w : world E) :
  step fuel action self w
  = match repeat_while fuel action (inner_step w action).1
            (append_sample self (inner_step w action).1) (inner_step w action).2 with
    | None => None
    | Some (Raise e, st) => Some (Raise e, st)
    | Some (Ok tr, (self2, w2)) =>
        match Numpy.mean_axis0 (obs self2) with
        | Raise e =>
            Some (Raise e,
                  ({| last_obs := Some (obs_of tr); reward := reward self2;
                      obs := obs self2 |}, w2))
        | Ok mean_obs =>
            Some (Ok (mean_obs, Numpy.mean (reward self2), done_of tr, info_of tr),
                  ({| last_obs := Some (obs_of tr); reward := []; obs := [] |}, w2))
        end
    end.
Proof.
  unfold step. destruct (inner_step w action) as [cur w1]. cbn [fst snd].
  destruct (repeat_while fuel action cur (append_sample self cur) w1)
    as [[[[[[o r] d] info]|e] [self2 w2]]|]; reflexivity.
Qed.

(** The window is empty after construction, and [reset] leaves it as it
    is while installing the baseline. *)
Lemma window_after_reset (kwargs : pydict) (self : t) (w : world E) :
  obs __init__ = [] /\ reward __init__ = []
  /\ obs (reset kwargs self w).2.1 = obs self
  /\ reward (reset kwargs self w).2.1 = reward self
  /\ last_obs (reset kwargs self w).2.1 = Some (reset kwargs self w).1.
Proof.
  unfold reset, inner_reset. by destruct (env_reset (sim w) kwargs) as [o e1].
Qed.

(** C4: let the first [K - 1] of the next [K] inner transitions keep the
    first three observation fields of the stored baseline without
    terminating, and let the [K]-th end the control step.  With the window
    empty on entry and enough fuel for the loop, one [step] makes exactly
    [K] inner [step] calls, all with the given action; it returns the
    pointwise mean of the [K] observations, the mean of the [K] rewards and
    the [done] and [info] of the [K]-th transition, and it leaves the window
    empty with the [K]-th observation as the new baseline. *)
Theorem step_aggregates_control_step
    (K fuel d : nat) (action base : list Q) (self : t) (w : world E) :
  (0 < K)%nat ->
  (K - 1 <= fuel)%nat ->
  last_obs self = Some base ->
  obs self = [] ->
  reward self = [] ->
  Forall (fun tr => continues base tr = true)
         (take (K - 1) (inner_run K action (sim w)).1) ->
  Forall (fun tr => continues base tr = false)
         (drop (K - 1) (inner_run K action (sim w)).1) ->
  Forall (fun tr => length (obs_of tr) = d) (inner_run K action (sim w)).1 ->
  let trs := (inner_run K action (sim w)).1 in
  exists mean_obs mean_reward final,
    step fuel action self w
    = Some (Ok (mean_obs, mean_reward, done_of final, info_of final),
            ({| last_obs := Some (obs_of final); reward := []; obs := [] |},
             {| sim := (inner_run K action (sim w)).2;
                calls := calls w ++ replicate K (CallStep action) |}))
    /\ length trs = K
    /\ trs !! (K - 1)%nat = Some final
    /\ length mean_obs = d
    /\ (forall (j : nat) (x : Q),
          mean_obs !! j = Some x ->
          (x == field_sum j (map obs_of trs) / inject_Z (Z.of_nat K))%Q)
    /\ (mean_reward == reward_sum trs / inject_Z (Z.of_nat K))%Q.
Proof.
  intros HK Hfuel Hbase Hobs Hreward Hgo Hstop Hlen trs.
  destruct K as [|m]; [lia|]. replace (S m - 1)%nat with m in * by lia.
  pose proof (inner_run_length (S m) action (sim w)) as Htrs.
  subst trs. rewrite inner_run_succ in Hgo, Hstop, Hlen, Htrs |- *.
  cbn [fst snd] in Hgo, Hstop, Hlen, Htrs |- *.
  set (cur := (env_step (sim w) action).1) in *.
  set (e1 := (env_step (sim w) action).2) in *.
  set (rest := (inner_run m action e1).1) in *.
  assert (Hrest : length rest = m) by apply inner_run_length.
  rewrite step_unfold, inner_step_eq. cbn [fst snd]. fold cur e1.
  rewrite (repeat_while_run base action m); cbn [sim calls];
    [|exact Hfuel|by destruct cur as [[[? ?] ?] ?]|exact Hgo|exact Hstop].
  fold rest. cbn [obs reward].
  assert (Hbuf_obs : obs (append_sample self cur) ++ map obs_of rest
                     = map obs_of (cur :: rest)).
  { destruct cur as [[[o r] dn] info]. cbn. rewrite Hobs. reflexivity. }
  assert (Hbuf_reward : reward (append_sample self cur) ++ map reward_of rest
                        = map reward_of (cur :: rest)).
  { destruct cur as [[[o r] dn] info]. cbn. rewrite Hreward. reflexivity. }
  rewrite Hbuf_obs, Hbuf_reward.
  destruct (mean_axis0_fields (map obs_of (cur :: rest)) d) as (mo & Hmo & Hmolen & Hfields).
  { done. }
  { apply Forall_forall. intros o Ho. apply list_elem_of_In, in_map_iff in Ho.
    destruct Ho as (tr & <- & Hin). rewrite Forall_forall in Hlen.
    by apply Hlen, list_elem_of_In. }
  rewrite Hmo.
  exists mo, (Numpy.mean (map reward_of (cur :: rest))), (List.last rest cur).
  split.
  { do 4 f_equal. by rewrite <- app_assoc. }
  split; [exact Htrs|].
  split; [rewrite <- Hrest; apply lookup_last_cons|].
  split; [exact Hmolen|].
  split.
  - intros j x Hx. apply Hfields in Hx. rewrite Hx, length_map. cbn [length].
    by rewrite Hrest.
  - rewrite mean_rewards. cbn [length]. by rewrite Hrest.
Qed.

End AggregatorFacts.

(** *** The aggregator on the scripted simulator *)

Section AggregatorRuns.
Import RepeatAction.

Lemma step_aggregates_control_step_witness :
  let start := (reset ∅ __init__ (Scripted.fresh 3 100)).2 in
  let action := [0; 1; -1; 0]%Q in
  let trs := (inner_run 3 action (sim start.2)).1 in
  exists mean_obs mean_reward final,
    step 5 action start.1 start.2
    = Some (Ok (mean_obs, mean_reward, done_of final, info_of final),
            ({| last_obs := Some (obs_of final); reward := []; obs := [] |},
             {| sim := (inner_run 3 action (sim start.2)).2;
                calls := calls start.2 ++ replicate 3 (CallStep action) |}))
    /\ length trs = 3%nat
    /\ trs !! (3 - 1)%nat = Some final
    /\ length mean_obs = 6%nat
    /\ (forall (j : nat) (x : Q),
          mean_obs !! j = Some x ->
          (x == field_sum j (map obs_of trs) / inject_Z (Z.of_nat 3))%Q)
    /\ (mean_reward == reward_sum trs / inject_Z (Z.of_nat 3))%Q.
Proof.
  intros start action.
  apply (step_aggregates_control_step 3 5 6 action [0; 0; 0; 0 + 0; 0; 0]%Q
           start.1 start.2).
  - lia.
  - cbn. lia.
  - reflexivity.
  - reflexivity.
  - reflexivity.
  - repeat constructor.
  - repeat constructor.
  - repeat constructor.
Defined.

End AggregatorRuns.

(** * Further properties *)

(** ** Observation normalisation: shapes and the other round trip *)

Section ObsWrapperShapes.
Import EnergyPlusObsWrapper.

Lemma length_six (x : list Q) :
  length x = 6%nat -> exists a b c p d e, x = [a; b; c; p; d; e].
Proof.
  destruct x as [|a [|b [|c [|p [|d [|e [|f x]]]]]]]; try discriminate.
  intros _. by exists a, b, c, p, d, e.
Qed.

(** X1: on a raw observation of six fields, [observation] followed by
    [reverse_observation] succeeds and gives back the raw fields 0, 1, 2, 4
    and 5; field 3 is rebuilt as the sum of fields 4 and 5, whatever the raw
    field 3 was.  The result is the raw observation exactly when the raw
    field 3 was that sum. *)
Theorem reverse_observation_observation (raw : list Q) (p d e : Q) :
  length raw = 6%nat ->
  raw !! 3%nat = Some p ->
  raw !! 4%nat = Some d ->
  raw !! 5%nat = Some e ->
  exists x y,
    observation raw = Ok x
    /\ reverse_observation x = Ok y
    /\ Forall2 Qeq y (<[3%nat := (d + e)%Q]> raw)
    /\ (Forall2 Qeq y raw <-> (p == d + e)%Q).
Proof.
  intros Hlen Hp Hd He. apply length_six in Hlen.
  destruct Hlen as (a & b & c & p' & d' & e' & ->).
  cbn in Hp, Hd, He. injection Hp as ->. injection Hd as ->. injection He as ->.
  eexists _, _. rewrite observation_six, reverse_observation_five.
  split; [reflexivity|]. split; [reflexivity|].
  assert (Hsum : (d / 100000 * 100000 + e / 100000 * 100000 == d + e)%Q) by field.
  split.
  - cbn. repeat constructor; field.
  - rewrite !Forall2_cons. split.
    + intros (_ & _ & _ & H3 & _). rewrite <- H3. by rewrite Hsum.
    + intros H3. repeat split; try field; [|constructor].
      rewrite H3. exact Hsum.
Qed.

Lemma reverse_observation_observation_witness :
  exists x y,
    observation [20; 21; 22; 50000; 30000; 20000]%Q = Ok x
    /\ reverse_observation x = Ok y
    /\ Forall2 Qeq y (<[3%nat := (30000 + 20000)%Q]> [20; 21; 22; 50000; 30000; 20000]%Q)
    /\ (Forall2 Qeq y [20; 21; 22; 50000; 30000; 20000]%Q <-> (50000 == 30000 + 20000)%Q).
Proof.
  by apply (reverse_observation_observation [20; 21; 22; 50000; 30000; 20000]%Q).
Defined.

(** X2: [observation] succeeds exactly on raw observations of six fields
    or of one field (which numpy stretches over the five divisors); it then
    returns five fields.  On every other length the division raises
    [ValueError]. *)
Theorem observation_shapes (raw : list Q) :
  (length raw = 6%nat \/ length raw = 1%nat ->
   exists x, observation raw = Ok x /\ length x = 5%nat)
  /\ (length raw <> 6%nat -> length raw <> 1%nat -> observation raw = Raise ValueError).
Proof.
  split.
  - intros [Hlen|Hlen].
    + apply length_six in Hlen. destruct Hlen as (a & b & c & p & d & e & ->).
      eexists. split; reflexivity.
    + destruct raw as [|a [|b raw]]; try discriminate. eexists. split; reflexivity.
  - intros H6 H1.
    by destruct raw as [|a [|b [|c [|p [|d [|e [|f raw]]]]]]].
Qed.

(** X3: [observation] never reads field 3 of the raw observation: writing
    any value there leaves the result, or the error, as it was. *)
Theorem observation_ignores_field_3 (raw : list Q) (v : Q) :
  observation (<[3%nat := v]> raw) = observation raw.
Proof.
  unfold observation, Numpy.slice, Numpy.slice_from.
  change (3 - 0)%nat with 3%nat. rewrite !drop_0.
  rewrite take_insert_ge by lia. by rewrite drop_insert_lt by lia.
Qed.

(** X4: [reverse_observation] succeeds exactly on normalized observations
    of five fields or of one field; the result has six fields and its field
    3 is the sum of its fields 4 and 5.  On every other length the
    multiplication raises [ValueError]. *)
Theorem reverse_observation_shapes (x : list Q) :
  (length x = 5%nat \/ length x = 1%nat ->
   exists y a b,
     reverse_observation x = Ok y
     /\ length y = 6%nat
     /\ y !! 4%nat = Some a
     /\ y !! 5%nat = Some b
     /\ y !! 3%nat = Some (a + b)%Q)
  /\ (length x <> 5%nat -> length x <> 1%nat -> reverse_observation x = Raise ValueError).
Proof.
  split; [|apply reverse_observation_bad_shape].
  intros [Hlen|Hlen].
  - apply length_five in Hlen. destruct Hlen as (a & b & c & d & e & ->).
    eexists _, _, _. rewrite reverse_observation_five. repeat split.
  - destruct x as [|a [|b x]]; try discriminate.
    eexists _, _, _. repeat split.
Qed.

End ObsWrapperShapes.

Section BatchShapes.
Import EnergyPlusObsWrapper.

Lemma batch_width_ok (t : Torch.tensor2) :
  Torch.ncols t = 5%nat \/ Torch.ncols t = 1%nat ->
  ((Torch.ncols t =? 5) || (Torch.ncols t =? 1))%nat = true.
Proof. intros [->| ->]; reflexivity. Qed.

Lemma batch_width_bad (t : Torch.tensor2) :
  Torch.ncols t <> 5%nat -> Torch.ncols t <> 1%nat ->
  ((Torch.ncols t =? 5) || (Torch.ncols t =? 1))%nat = false.
Proof.
  intros H5 H1. apply orb_false_iff. split; by apply Nat.eqb_neq.
Qed.

(** The rows of a restored batch are the single-sample inverses of the
    input rows. *)
Lemma batch_rows_restored (t : Torch.tensor2) :
  Torch.well_formed t ->
  Torch.ncols t = 5%nat \/ Torch.ncols t = 1%nat ->
  exists t',
    reverse_observation_batch_tensor t = Ok t'
    /\ Torch.ncols t' = 6%nat
    /\ Forall2 (fun r r' => reverse_observation r = Ok r') (Torch.trows t) (Torch.trows t').
Proof.
  intros Hwf Hw. rewrite reverse_observation_batch_tensor_eq, (batch_width_ok t Hw).
  eexists. split; [reflexivity|]. split; [reflexivity|]. cbn [Torch.trows].
  unfold Torch.well_formed in Hwf.
  induction Hwf as [|r rows Hr _ IH]; cbn [map]; constructor; [|exact IH].
  apply reverse_observation_row. rewrite Hr. exact Hw.
Qed.

(** X5: the batched inverse looks only at the width of the batch: with
    five columns, or one, it returns a batch of six columns and as many
    rows as it was given (none for an empty batch); with any other width it
    raises [RuntimeError]. *)
Theorem reverse_observation_batch_tensor_shapes (t : Torch.tensor2) :
  (Torch.ncols t = 5%nat \/ Torch.ncols t = 1%nat ->
   exists t',
     reverse_observation_batch_tensor t = Ok t'
     /\ Torch.ncols t' = 6%nat
     /\ length (Torch.trows t') = length (Torch.trows t))
  /\ (Torch.ncols t <> 5%nat -> Torch.ncols t <> 1%nat ->
      reverse_observation_batch_tensor t = Raise RuntimeError).
Proof.
  rewrite reverse_observation_batch_tensor_eq. split.
  - intros Hw. rewrite (batch_width_ok t Hw). eexists. split; [reflexivity|].
    split; [reflexivity|]. cbn [Torch.trows]. apply length_map.
  - intros H5 H1. by rewrite (batch_width_bad t H5 H1).
Qed.

Section CostFacts.
Context {A C : Type} (env_cost_fn : Torch.tensor2 -> A -> Torch.tensor2 -> C).

(** X6: [cost_fn] hands the inner cost function the two batches restored
    row by row with [reverse_observation], and the actions untouched.  When
    the width of [states] or of [next_states] is neither 5 nor 1 it raises
    [RuntimeError] and returns no cost. *)
Theorem cost_fn_restores_batches
    (states next_states : Torch.tensor2) (actions : A) :
  (Torch.well_formed states -> Torch.well_formed next_states ->
   Torch.ncols states = 5%nat \/ Torch.ncols states = 1%nat ->
   Torch.ncols next_states = 5%nat \/ Torch.ncols next_states = 1%nat ->
   exists raw_states raw_next,
     cost_fn env_cost_fn states actions next_states
     = Ok (env_cost_fn raw_states actions raw_next)
     /\ Forall2 (fun r r' => reverse_observation r = Ok r')
          (Torch.trows states) (Torch.trows raw_states)
     /\ Forall2 (fun r r' => reverse_observation r = Ok r')
          (Torch.trows next_states) (Torch.trows raw_next))
  /\ ((Torch.ncols states <> 5%nat /\ Torch.ncols states <> 1%nat)
      \/ (Torch.ncols next_states <> 5%nat /\ Torch.ncols next_states <> 1%nat) ->
      cost_fn env_cost_fn states actions next_states = Raise RuntimeError).
Proof.
  split.
  - intros Hwf Hwf' Hw Hw'.
    destruct (batch_rows_restored states Hwf Hw) as (s' & Hs & _ & Hrows).
    destruct (batch_rows_restored next_states Hwf' Hw') as (n' & Hn & _ & Hrows').
    exists s', n'. unfold cost_fn. rewrite Hs, Hn. by split.
  - unfold cost_fn. rewrite !reverse_observation_batch_tensor_eq.
    intros [[H5 H1]|[H5 H1]].
    + by rewrite (batch_width_bad states H5 H1).
    + rewrite (batch_width_bad next_states H5 H1).
      by destruct ((Torch.ncols states =? 5) || (Torch.ncols states =? 1))%nat.
Qed.

End CostFacts.

End BatchShapes.

(** ** Control-step aggregation: every way [step] can end *)

Section AggregatorOutcomes.
Context {E : Type} `{GymEnv E}.
Import RepeatAction.

Lemma same_prefix_guard (self : t) (base : list Q) (cur : transition) :
  last_obs self = Some base ->
  same_prefix self (obs_of cur)
  = Ok (Numpy.array_equal (Numpy.slice 0 3 (obs_of cur)) (Numpy.slice 0 3 base)).
Proof. intros Hb. unfold same_prefix. by rewrite Hb. Qed.

Lemma append_sample_last_obs (self : t) (tr : transition) :
  last_obs (append_sample self tr) = last_obs self.
Proof. by destruct tr as [[[o r] d] info]. Qed.

(** When the loop returns a transition, it inspected a run of transitions
    on which the guard held, followed by one on which it failed. *)
Lemma repeat_while_returns (action : list Q) (fuel : nat) :
  forall (cur last : transition) (self self' : t) (w w' : world E),
    repeat_while fuel action cur self w = Some (Ok last, (self', w')) ->
    exists (m : nat) (base : list Q),
      (m <= fuel)%nat
      /\ last_obs self = Some base
      /\ Forall (fun tr => continues base tr = true)
                (take m (cur :: (inner_run m action (sim w)).1))
      /\ Forall (fun tr => continues base tr = false)
                (drop m (cur :: (inner_run m action (sim w)).1)).
Proof.
  induction fuel as [|fuel IH]; intros cur last self self' w w' Hrun;
    rewrite repeat_while_unfold in Hrun;
    destruct (last_obs self) as [base|] eqn:Hbase;
    try (unfold same_prefix in Hrun; rewrite Hbase in Hrun; discriminate);
    rewrite (same_prefix_guard self base cur Hbase) in Hrun;
    change (Numpy.array_equal (Numpy.slice 0 3 (obs_of cur)) (Numpy.slice 0 3 base)
            && negb (done_of cur)) with (continues base cur) in Hrun;
    destruct (continues base cur) eqn:Hguard; try discriminate.
  - exists O, base. repeat split; [lia|constructor|]. cbn. by repeat constructor.
  - apply IH in Hrun as (m & base' & Hm & Hbase' & Hgo & Hstop).
    rewrite append_sample_last_obs, Hbase in Hbase'. injection Hbase' as <-.
    rewrite inner_step_eq in Hgo, Hstop. cbn [fst snd sim] in Hgo, Hstop.
    exists (S m), base. rewrite inner_run_succ. cbn [fst snd take drop].
    repeat split; [lia|by constructor|exact Hstop].
  - exists O, base. repeat split; [lia|constructor|]. cbn. by repeat constructor.
Qed.

(** The loop never leaves while the guard holds on every transition the
    simulator can produce. *)
Lemma repeat_while_diverges (action base : list Q) (fuel : nat) :
  (forall e : E, continues base (env_step e action).1 = true) ->
  forall (cur : transition) (self : t) (w : world E),
    last_obs self = Some base ->
    continues base cur = true ->
    repeat_while fuel action cur self w = None.
Proof.
  intros Hall. induction fuel as [|fuel IH]; intros cur self w Hbase Hguard;
    rewrite repeat_while_unfold, (same_prefix_guard self base cur Hbase);
    change (Numpy.array_equal (Numpy.slice 0 3 (obs_of cur)) (Numpy.slice 0 3 base)
            && negb (done_of cur)) with (continues base cur);
    rewrite Hguard; [reflexivity|].
  apply IH.
  - by rewrite append_sample_last_obs.
  - rewrite inner_step_eq. apply Hall.
Qed.

(** What [step] does when the guard holds on the first [K - 1] of the next
    [K] transitions and fails on the [K]-th, for any content of the
    window. *)
Lemma step_run (K fuel : nat) (action base : list Q) (self : t) (w : world E) :
  (0 < K)%nat ->
  (K - 1 <= fuel)%nat ->
  last_obs self = Some base ->
  Forall (fun tr => continues base tr = true)
         (take (K - 1) (inner_run K action (sim w)).1) ->
  Forall (fun tr => continues base tr = false)
         (drop (K - 1) (inner_run K action (sim w)).1) ->
  exists final,
    (inner_run K action (sim w)).1 !! (K - 1)%nat = Some final
    /\ step fuel action self w
       = let window := obs self ++ map obs_of (inner_run K action (sim w)).1 in
         let rewards := reward self ++ map reward_of (inner_run K action (sim w)).1 in
         let w' := {| sim := (inner_run K action (sim w)).2;
                      calls := calls w ++ replicate K (CallStep action) |} in
         match Numpy.mean_axis0 window with
         | Raise e =>
             Some (Raise e,
                   ({| last_obs := Some (obs_of final); reward := rewards;
                       obs := window |}, w'))
         | Ok mean_obs =>
             Some (Ok (mean_obs, Numpy.mean rewards, done_of final, info_of final),
                   ({| last_obs := Some (obs_of final); reward := []; obs := [] |}, w'))
         end.
Proof.
  intros HK Hfuel Hbase Hgo Hstop.
  destruct K as [|m]; [lia|]. replace (S m - 1)%nat with m in * by lia.
  rewrite inner_run_succ in Hgo, Hstop |- *. cbn [fst snd] in Hgo, Hstop |- *.
  set (cur := (env_step (sim w) action).1) in *.
  set (e1 := (env_step (sim w) action).2) in *.
  set (rest := (inner_run m action e1).1) in *.
  assert (Hrest : length rest = m) by apply inner_run_length.
  exists (List.last rest cur). split; [rewrite <- Hrest; apply lookup_last_cons|].
  rewrite step_unfold, inner_step_eq. cbn [fst snd]. fold cur e1.
  rewrite (repeat_while_run base action m); cbn [sim calls];
    [|exact Hfuel|by rewrite append_sample_last_obs|exact Hgo|exact Hstop].
  fold rest. cbn [obs reward]. cbv zeta.
  assert (Hwin : obs (append_sample self cur) ++ map obs_of rest
                 = obs self ++ map obs_of (cur :: rest)).
  { destruct cur as [[[o r] dn] info]. cbn. by rewrite <- app_assoc. }
  assert (Hrew : reward (append_sample self cur) ++ map reward_of rest
                 = reward self ++ map reward_of (cur :: rest)).
  { destruct cur as [[[o r] dn] info]. cbn. by rewrite <- app_assoc. }
  rewrite Hwin, Hrew.
  replace ((calls w ++ [CallStep action]) ++ replicate m (CallStep action))
    with (calls w ++ replicate (S m) (CallStep action)) by (by rewrite <- app_assoc).
  by destruct (Numpy.mean_axis0 (obs self ++ map obs_of (cur :: rest))).
Qed.

(** X7: a [step] made before any [reset] raises [TypeError], whatever the
    fuel, but only after one inner [step]: the simulator has advanced, one
    call is logged, and the sample of that call is left in the window. *)
Theorem step_before_reset_raises (fuel : nat) (action : list Q) (self : t) (w : world E) :
  last_obs self = None ->
  step fuel action self w
  = Some (Raise TypeError,
          (append_sample self (env_step (sim w) action).1,
           {| sim := (env_step (sim w) action).2;
              calls := calls w ++ [CallStep action] |})).
Proof.
  intros Hnone. rewrite step_unfold, inner_step_eq. cbn [fst snd].
  rewrite repeat_while_unfold. unfold same_prefix.
  by rewrite append_sample_last_obs, Hnone.
Qed.

(** X8: [step] does not return when the simulator keeps the first three
    fields of the baseline and never terminates: no amount of fuel lets the
    loop leave. *)
Theorem step_never_returns (action base : list Q) (self : t) (w : world E) :
  last_obs self = Some base ->
  (forall e : E, continues base (env_step e action).1 = true) ->
  forall fuel : nat, step fuel action self w = None.
Proof.
  intros Hbase Hall fuel. rewrite step_unfold, inner_step_eq. cbn [fst snd].
  rewrite (repeat_while_diverges action base fuel Hall); [reflexivity| |apply Hall].
  by rewrite append_sample_last_obs.
Qed.

(** X9: whenever [step] returns, it has made [K >= 1] inner [step] calls
    and nothing else, all with the given action; the guard held on the
    first [K - 1] transitions and failed on the last one, whose [done] and
    [info] are returned; the observation and reward returned are the means
    over the window as found on entry extended by the [K] new samples; the
    window is left empty and the last observation is the new baseline. *)
Theorem step_returns_inv
    (fuel : nat) (action : list Q) (self self' : t) (w w' : world E)
    (mean_obs : list Q) (mean_reward : Q) (done : bool) (info : pydict) :
  step fuel action self w = Some (Ok (mean_obs, mean_reward, done, info), (self', w')) ->
  exists (K : nat) (base : list Q) (final : transition),
    (1 <= K <= S fuel)%nat
    /\ last_obs self = Some base
    /\ Forall (fun tr => continues base tr = true)
              (take (K - 1) (inner_run K action (sim w)).1)
    /\ (inner_run K action (sim w)).1 !! (K - 1)%nat = Some final
    /\ continues base final = false
    /\ calls w' = calls w ++ replicate K (CallStep action)
    /\ sim w' = (inner_run K action (sim w)).2
    /\ self' = {| last_obs := Some (obs_of final); reward := []; obs := [] |}
    /\ done = done_of final
    /\ info = info_of final
    /\ Numpy.mean_axis0 (obs self ++ map obs_of (inner_run K action (sim w)).1)
       = Ok mean_obs
    /\ mean_reward
       = Numpy.mean (reward self ++ map reward_of (inner_run K action (sim w)).1).
Proof.
  intros Hstep. pose proof Hstep as Hloop.
  rewrite step_unfold, inner_step_eq in Hloop. cbn [fst snd] in Hloop.
  destruct (repeat_while fuel action _ _ _) as [[[last|e] [self2 w2]]|] eqn:Hrun;
    try discriminate.
  clear Hloop.
  apply repeat_while_returns in Hrun as (m & base & Hm & Hbase & Hgo & Hstop).
  rewrite append_sample_last_obs in Hbase. cbn [sim] in Hgo, Hstop.
  assert (Hgo' : Forall (fun tr => continues base tr = true)
                   (take (S m - 1) (inner_run (S m) action (sim w)).1)).
  { rewrite inner_run_succ. by replace (S m - 1)%nat with m by lia. }
  assert (Hstop' : Forall (fun tr => continues base tr = false)
                     (drop (S m - 1) (inner_run (S m) action (sim w)).1)).
  { rewrite inner_run_succ. by replace (S m - 1)%nat with m by lia. }
  destruct (step_run (S m) fuel action base self w) as (final & Hfinal & Heq);
    [lia|lia|exact Hbase|exact Hgo'|exact Hstop'|].
  rewrite Hstep in Heq. cbv zeta in Heq.
  destruct (Numpy.mean_axis0 _) as [mo|e] eqn:Hmean in Heq; [|discriminate].
  injection Heq as -> -> -> -> -> ->.
  exists (S m), base, final. repeat split; try done; try lia.
  pose proof (inner_run_length (S m) action (sim w)) as Hlen.
  rewrite Forall_forall in Hstop'. apply Hstop'.
  rewrite <- (take_drop (S m - 1) (inner_run (S m) action (sim w)).1) in Hfinal.
  rewrite lookup_app_r in Hfinal by (rewrite length_take; lia).
  by apply list_elem_of_lookup_2 in Hfinal.
Qed.

Lemma mean_of_list (l : list Q) :
  (Numpy.mean l == fold_right Qplus 0 l / inject_Z (Z.of_nat (length l)))%Q.
Proof. unfold Numpy.mean, Numpy.sum. by rewrite foldl_Qplus, Qplus_0_l. Qed.

(** X10: [step] averages over everything the window holds, not only over
    the samples of the current control step: with [n] observations (of the
    common length [d]) and [n'] rewards already in the window on entry, as
    after a call that raised, and [K] inner transitions in the control
    step, each returned field is the field sum over all [n + K]
    observations divided by [n + K], and the returned reward is the sum of
    all [n' + K] rewards divided by [n' + K]. *)
Theorem step_averages_whole_window
    (K fuel d : nat) (action base : list Q) (self : t) (w : world E) :
  (0 < K)%nat ->
  (K - 1 <= fuel)%nat ->
  last_obs self = Some base ->
  Forall (fun tr => continues base tr = true)
         (take (K - 1) (inner_run K action (sim w)).1) ->
  Forall (fun tr => continues base tr = false)
         (drop (K - 1) (inner_run K action (sim w)).1) ->
  Forall (fun o => length o = d) (obs self) ->
  Forall (fun tr => length (obs_of tr) = d) (inner_run K action (sim w)).1 ->
  let trs := (inner_run K action (sim w)).1 in
  exists mean_obs mean_reward final,
    step fuel action self w
    = Some (Ok (mean_obs, mean_reward, done_of final, info_of final),
            ({| last_obs := Some (obs_of final); reward := []; obs := [] |},
             {| sim := (inner_run K action (sim w)).2;
                calls := calls w ++ replicate K (CallStep action) |}))
    /\ length mean_obs = d
    /\ (forall (j : nat) (x : Q),
          mean_obs !! j = Some x ->
          (x == field_sum j (obs self ++ map obs_of trs)
                / inject_Z (Z.of_nat (length (obs self) + K)))%Q)
    /\ (mean_reward
        == fold_right Qplus 0 (reward self ++ map reward_of trs)
           / inject_Z (Z.of_nat (length (reward self) + K)))%Q.
Proof.
  intros HK Hfuel Hbase Hgo Hstop Hold Hnew trs.
  destruct (step_run K fuel action base self w HK Hfuel Hbase Hgo Hstop)
    as (final & Hfinal & Hstep).
  cbv zeta in Hstep. fold trs in Hstep, Hfinal.
  assert (Hlen : length trs = K) by apply inner_run_length.
  destruct (mean_axis0_fields (obs self ++ map obs_of trs) d) as (mo & Hmo & Hmolen & Hfields).
  { intros Hnil. apply (f_equal length) in Hnil.
    rewrite length_app, length_map, Hlen in Hnil. cbn in Hnil. lia. }
  { apply Forall_app. split; [exact Hold|].
    apply Forall_forall. intros o Ho. apply list_elem_of_In, in_map_iff in Ho.
    destruct Ho as (tr & <- & Hin). rewrite Forall_forall in Hnew.
    by apply Hnew, list_elem_of_In. }
  rewrite Hmo in Hstep.
  exists mo, (Numpy.mean (reward self ++ map reward_of trs)), final.
  split; [exact Hstep|]. split; [exact Hmolen|]. split.
  - intros j x Hx. apply Hfields in Hx.
    by rewrite Hx, length_app, length_map, Hlen.
  - by rewrite mean_of_list, length_app, length_map, Hlen.
Qed.

(** X11: termination ends the control step at once.  When the first inner
    transition reports [done], [step] makes exactly one inner call even if
    the first three fields are those of the baseline; with the window empty
    on entry it returns that transition's observation and reward (the means
    of one sample) with [done = True] and its [info]. *)
Theorem step_ends_on_done (fuel : nat) (action base : list Q) (self : t) (w : world E) :
  last_obs self = Some base ->
  obs self = [] ->
  reward self = [] ->
  done_of (env_step (sim w) action).1 = true ->
  let tr := (env_step (sim w) action).1 in
  exists mean_obs mean_reward,
    step fuel action self w
    = Some (Ok (mean_obs, mean_reward, true, info_of tr),
            ({| last_obs := Some (obs_of tr); reward := []; obs := [] |},
             {| sim := (env_step (sim w) action).2;
                calls := calls w ++ [CallStep action] |}))
    /\ Forall2 Qeq mean_obs (obs_of tr)
    /\ (mean_reward == reward_of tr)%Q.
Proof.
  intros Hbase Hobs Hreward Hdone tr.
  assert (Hstop : continues base tr = false).
  { unfold continues. fold tr in Hdone. rewrite Hdone. apply andb_false_r. }
  destruct (step_run 1 fuel action base self w) as (final & Hfinal & Hstep);
    [lia|lia|exact Hbase|constructor| |].
  { rewrite inner_run_succ. cbn. by repeat constructor. }
  rewrite inner_run_succ in Hfinal, Hstep. cbn [inner_run fst snd] in Hfinal, Hstep.
  fold tr in Hfinal, Hstep. cbn in Hfinal. injection Hfinal as <-.
  rewrite Hobs, Hreward in Hstep. cbv zeta in Hstep.
  cbn [app map replicate Numpy.mean_axis0 forallb] in Hstep.
  fold tr in Hdone. rewrite Hdone in Hstep.
  eexists _, _. split; [exact Hstep|]. split.
  - clear Hstep. cbn [foldl length]. generalize (obs_of tr). intros o.
    induction o as [|x o IH]; cbn [map]; constructor; [|exact IH].
    change (inject_Z (Z.of_nat 1)) with 1%Q. field.
  - rewrite mean_of_list. cbn [fold_right length].
    change (inject_Z (Z.of_nat 1)) with 1%Q. field.
Qed.

End AggregatorOutcomes.

(** *** The aggregator on the scripted simulators: further runs *)

Section AggregatorOutcomeRuns.
Import RepeatAction.

Lemma step_before_reset_raises_witness :
  step 3 [0; 0; 0; 0]%Q __init__ (Scripted.fresh 3 100)
  = Some (Raise TypeError,
          (append_sample __init__ (env_step (sim (Scripted.fresh 3 100)) [0; 0; 0; 0]%Q).1,
           {| sim := (env_step (sim (Scripted.fresh 3 100)) [0; 0; 0; 0]%Q).2;
              calls := calls (Scripted.fresh 3 100) ++ [CallStep [0; 0; 0; 0]%Q] |})).
Proof.
  apply (step_before_reset_raises 3 [0; 0; 0; 0]%Q __init__ (Scripted.fresh 3 100)).
  reflexivity.
Defined.

Lemma step_never_returns_witness :
  step 1000 [0; 0; 0; 0]%Q (reset ∅ __init__ Frozen.fresh).2.1
       (reset ∅ __init__ Frozen.fresh).2.2 = None.
Proof.
  refine (step_never_returns [0; 0; 0; 0]%Q Frozen.observe
            (reset ∅ __init__ Frozen.fresh).2.1 (reset ∅ __init__ Frozen.fresh).2.2
            _ _ 1000%nat).
  - reflexivity.
  - intros e. reflexivity.
Defined.

Lemma step_returns_inv_witness :
  let start := (reset ∅ __init__ (Scripted.fresh 3 100)).2 in
  let action := [0; 1; -1; 0]%Q in
  let self' := {| last_obs := Some [1; 1; 1; 6; 3; 3]%Q; reward := []; obs := [] |} in
  let w' := {| sim := {| Scripted.period := 3; Scripted.horizon := 100;
                         Scripted.clock := 3 |};
               calls := [CallReset ∅; CallStep action; CallStep action; CallStep action] |} in
  exists (K : nat) (base : list Q) (final : transition),
    (1 <= K <= 6)%nat
    /\ last_obs start.1 = Some base
    /\ Forall (fun tr => continues base tr = true)
              (take (K - 1) (inner_run K action (sim start.2)).1)
    /\ (inner_run K action (sim start.2)).1 !! (K - 1)%nat = Some final
    /\ continues base final = false
    /\ calls w' = calls start.2 ++ replicate K (CallStep action)
    /\ sim w' = (inner_run K action (sim start.2)).2
    /\ self' = {| last_obs := Some (obs_of final); reward := []; obs := [] |}
    /\ false = done_of final
    /\ (∅ : pydict) = info_of final
    /\ Numpy.mean_axis0 (obs start.1 ++ map obs_of (inner_run K action (sim start.2)).1)
       = Ok [1 # 3; 1 # 3; 1 # 3; 12 # 3; 6 # 3; 6 # 3]%Q
    /\ (6 # 3)%Q
       = Numpy.mean (reward start.1 ++ map reward_of (inner_run K action (sim start.2)).1).
Proof.
  intros start action self' w'.
  apply (step_returns_inv 5 action start.1 self' start.2 w').
  reflexivity.
Defined.

Lemma step_averages_whole_window_witness :
  let action := [0; 1; -1; 0]%Q in
  let w0 := Scripted.fresh 3 100 in
  let stale := append_sample __init__ (env_step (sim w0) action).1 in
  let w1 := {| sim := (env_step (sim w0) action).2;
               calls := calls w0 ++ [CallStep action] |} in
  let start := (reset ∅ stale w1).2 in
  let trs := (inner_run 3 action (sim start.2)).1 in
  exists mean_obs mean_reward final,
    step 5 action start.1 start.2
    = Some (Ok (mean_obs, mean_reward, done_of final, info_of final),
            ({| last_obs := Some (obs_of final); reward := []; obs := [] |},
             {| sim := (inner_run 3 action (sim start.2)).2;
                calls := calls start.2 ++ replicate 3 (CallStep action) |}))
    /\ length mean_obs = 6%nat
    /\ (forall (j : nat) (x : Q),
          mean_obs !! j = Some x ->
          (x == field_sum j (obs start.1 ++ map obs_of trs)
                / inject_Z (Z.of_nat (length (obs start.1) + 3)))%Q)
    /\ (mean_reward
        == fold_right Qplus 0 (reward start.1 ++ map reward_of trs)
           / inject_Z (Z.of_nat (length (reward start.1) + 3)))%Q.
Proof.
  intros action w0 stale w1 start.
  apply (step_averages_whole_window 3 5 6 action [0; 0; 0; 0 + 0; 0; 0]%Q
           start.1 start.2).
  - lia.
  - cbn. lia.
  - reflexivity.
  - repeat constructor.
  - repeat constructor.
  - repeat constructor.
  - repeat constructor.
Defined.

Lemma step_ends_on_done_witness :
  let start := (reset ∅ __init__ (Scripted.fresh 3 1)).2 in
  let action := [0; 1; -1; 0]%Q in
  let tr := (env_step (sim start.2) action).1 in
  exists mean_obs mean_reward,
    step 0 action start.1 start.2
    = Some (Ok (mean_obs, mean_reward, true, info_of tr),
            ({| last_obs := Some (obs_of tr); reward := []; obs := [] |},
             {| sim := (env_step (sim start.2) action).2;
                calls := calls start.2 ++ [CallStep action] |}))
    /\ Forall2 Qeq mean_obs (obs_of tr)
    /\ (mean_reward == reward_of tr)%Q.
Proof.
  intros start action.
  apply (step_ends_on_done 0 action [0; 0; 0; 0 + 0; 0; 0]%Q start.1 start.2);
    reflexivity.
Defined.

End AggregatorOutcomeRuns.

(** ** Episode segmentation: pass-through, misuse and segment boundaries *)

Section SegmenterOutcomes.
Context {E : Type} `{GymEnv E}.
Import EnergyPlusWrapper.

(** X12: whenever [step] returns, it has made one inner [step] call with
    the action as given and hands back the inner observation and reward as
    they are; [info] is the inner [info] with the key [true_done] set to
    the inner [done] and every other key untouched; the returned [done] is
    the inner [done] or the segment boundary, on the counter as [step] reads
    it after the inner call; the [true_done] flag is raised by a true
    termination and never cleared. *)
Theorem step_passes_through
    (action : list Q) (self self' : t) (w w' : world E)
    (o : option (list Q)) (r : Q) (d : bool) (info : pydict) :
  step action self w = (Ok (o, r, d, info), (self', w')) ->
  let tr := (env_step (sim w) action).1 in
  Gym.Box_contains (-1) 1 (shape self) action = true
  /\ o = Some (obs_of tr)
  /\ r = reward_of tr
  /\ info = <["true_done" := PyBool (done_of tr)]> (info_of tr)
  /\ (forall k : string, k <> "true_done" -> info !! k = info_of tr !! k)
  /\ d = done_of tr
          || match read_current_steps self w' with
             | Some c => c + 1 =? max_steps self
             | None => false
             end
  /\ true_done self' = true_done self || done_of tr
  /\ last_obs self' = Some (obs_of tr)
  /\ w' = {| sim := (env_step (sim w) action).2; calls := calls w ++ [CallStep action] |}.
Proof.
  intros Hstep tr. subst tr. unfold step, inner_step in Hstep.
  destruct (Gym.Box_contains (-1) 1 (shape self) action); [|discriminate].
  cbn [negb] in Hstep.
  destruct (env_step (sim w) action) as [[[[o1 r1] d1] info1] e1].
  cbn [fst snd obs_of reward_of done_of info_of].
  destruct d1.
  - injection Hstep as <- <- <- <- <- <-. cbn. rewrite orb_true_r.
    repeat split. intros k Hk. by rewrite lookup_insert_ne.
  - set (w1 := {| sim := e1; calls := calls w ++ [CallStep action] |}) in *.
    change (read_current_steps (set_last_obs self o1) w1)
      with (read_current_steps self w1) in Hstep.
    destruct (read_current_steps self w1) as [c|] eqn:Hread; [|discriminate].
    cbn in Hstep.
    destruct (Z.eqb_spec (c + 1) (max_steps self)) as [Heq|Hne].
    + injection Hstep as <- <- <- <- <- <-. rewrite Hread. cbn.
      apply Z.eqb_eq in Heq. rewrite Heq, orb_false_r.
      repeat split. intros k Hk. by rewrite lookup_insert_ne.
    + destruct (c + 1 <? max_steps self); [|discriminate].
      injection Hstep as <- <- <- <- <- <-. rewrite Hread. cbn.
      apply Z.eqb_neq in Hne. rewrite Hne, orb_false_r.
      repeat split. intros k Hk. by rewrite lookup_insert_ne.
Qed.

(** X13: on a wrapper that was never [reset], over an environment that has
    no attribute [current_steps] of its own, a [step] whose inner transition
    is not terminal fails with [AttributeError], but only after the inner
    [step]: the simulator has advanced and the observation is stored, while
    the transition itself is lost to the caller. *)
Theorem step_before_reset_fails_late (action : list Q) (self : t) (w : world E) :
  current_steps self = None ->
  env_current_steps (env_step (sim w) action).2 = None ->
  Gym.Box_contains (-1) 1 (shape self) action = true ->
  done_of (env_step (sim w) action).1 = false ->
  step action self w
  = (Raise AttributeError,
     (set_last_obs self (obs_of (env_step (sim w) action).1),
      {| sim := (env_step (sim w) action).2; calls := calls w ++ [CallStep action] |})).
Proof.
  intros Hcur Hattr Hc Hd. unfold step, inner_step. rewrite Hc.
  destruct (env_step (sim w) action) as [[[[o r] d] info] e1].
  cbn in Hd, Hattr |- *. subst d. unfold read_current_steps. cbn.
  by rewrite Hcur, Hattr.
Qed.

(** X14: a [step] past the end of a segment ([current_steps] already at
    [max_steps] or beyond, no [reset] in between) fails with [ValueError]
    when the inner transition is not terminal, but only after the inner
    [step]: the simulator has advanced, the observation is stored and
    [current_steps] has grown by one. *)
Theorem step_past_segment_fails_late
    (action : list Q) (self : t) (w : world E) (c : Z) :
  current_steps self = Some c ->
  max_steps self <= c ->
  Gym.Box_contains (-1) 1 (shape self) action = true ->
  done_of (env_step (sim w) action).1 = false ->
  step action self w
  = (Raise ValueError,
     (set_current_steps (set_last_obs self (obs_of (env_step (sim w) action).1)) (c + 1),
      {| sim := (env_step (sim w) action).2; calls := calls w ++ [CallStep action] |})).
Proof.
  intros Hcur Hle Hc Hd. unfold step, inner_step. rewrite Hc.
  destruct (env_step (sim w) action) as [[[[o r] d] info] e1].
  cbn in Hd |- *. subst d. unfold read_current_steps. cbn. rewrite Hcur.
  destruct (Z.eqb_spec (c + 1) (max_steps self)) as [|_]; [lia|].
  destruct (Z.ltb_spec (c + 1) (max_steps self)) as [|_]; [lia|reflexivity].
Qed.


(** The inner calls of a run of [step]s inside a segment, and the
    observation the wrapper holds afterwards. *)
Lemma steps_inside_segment_world (actions : list (list Q)) :
  forall (self : t) (w : world E) (c : Z),
    (forall e a, done_of (env_step e a).1 = false) ->
    current_steps self = Some c ->
    c + Z.of_nat (length actions) <= max_steps self ->
    Forall (fun a => Gym.Box_contains (-1) 1 (shape self) a = true) actions ->
    calls (steps actions self w).2.2 = calls w ++ map CallStep actions
    /\ sim (steps actions self w).2.2
       = foldl (fun e a => (env_step e a).2) (sim w) actions
    /\ max_steps (steps actions self w).2.1 = max_steps self
    /\ shape (steps actions self w).2.1 = shape self
    /\ (forall out : result outcome,
          last (steps actions self w).1 = Some out ->
          exists r d info,
            out = Ok (last_obs (steps actions self w).2.1, r, d, info)).
Proof.
  induction actions as [|a actions IH]; intros self w c Hnever Hcur Hle Hin.
  - cbn. rewrite app_nil_r. repeat split. intros out Hout. discriminate.
  - cbn [length] in Hle. apply Forall_cons in Hin as [Ha Hin]. cbn [steps].
    rewrite (step_inside_segment a self w c Ha (Hnever _ _) Hcur) by lia.
    cbv zeta.
    set (tr := (env_step (sim w) a).1).
    set (self1 := set_current_steps (set_last_obs self (obs_of tr)) (c + 1)).
    specialize (IH self1 (inner_step w a).2 (c + 1) Hnever eq_refl).
    destruct IH as (Hcalls & Hsim & Hmax & Hshape & Hlast); [cbn; lia|exact Hin|].
    rewrite inner_step_eq in Hcalls, Hsim, Hmax, Hshape, Hlast |- *.
    cbn [fst snd sim calls] in Hcalls, Hsim, Hmax, Hshape, Hlast |- *.
    destruct (steps actions self1 _) as [outs [self2 w2]] eqn:Hrun.
    cbn [fst snd] in Hcalls, Hsim, Hmax, Hshape, Hlast |- *.
    split; [by rewrite Hcalls, <- app_assoc|].
    split; [exact Hsim|]. split; [exact Hmax|]. split; [exact Hshape|].
    intros out Hout. destruct outs as [|out' outs].
    + cbn in Hout. injection Hout as <-.
      destruct actions as [|a' actions].
      * cbn in Hrun. injection Hrun as <- <-. by eexists _, _, _.
      * cbn [steps] in Hrun.
        destruct (step a' self1 _) as [[?|?] [? ?]]; [|discriminate].
        by destruct (steps actions _ _) as [? [? ?]].
    + apply Hlast. by rewrite last_cons_cons in Hout.
Qed.

(** X16: a segment boundary neither skips nor repeats simulator steps.
    On a simulator that never terminates, after the [M] steps of a full
    segment the next [reset] leaves the simulator untouched and returns the
    observation of the [M]-th step; over the segment and the steps of the
    next one the simulator receives one [step] call per action, in order,
    and no [reset]. *)
Theorem reset_at_segment_boundary
    (M : Z) (first second : list (list Q)) (kwargs kwargs' : pydict)
    (self : t) (w : world E) :
  max_steps self = M ->
  0 < M ->
  (forall e a, done_of (env_step e a).1 = false) ->
  Z.of_nat (length first) = M ->
  Z.of_nat (length second) <= M ->
  Forall (fun a => Gym.Box_contains (-1) 1 (shape self) a = true) first ->
  Forall (fun a => Gym.Box_contains (-1) 1 (shape self) a = true) second ->
  let start := (reset kwargs self w).2 in
  let run1 := steps first start.1 start.2 in
  let boundary := reset kwargs' run1.2.1 run1.2.2 in
  let run2 := steps second boundary.2.1 boundary.2.2 in
  boundary.2.2 = run1.2.2
  /\ (exists r info, last run1.1 = Some (Ok (boundary.1, r, true, info)))
  /\ length run2.1 = length second
  /\ calls run2.2.2 = calls start.2 ++ map CallStep (first ++ second)
  /\ sim run2.2.2 = foldl (fun e a => (env_step e a).2) (sim start.2) (first ++ second).
Proof.
  intros HM Hpos Hnever Hlen1 Hlen2 Hin1 Hin2 start run1 boundary run2.
  destruct (reset_state kwargs self w) as (Hcs & Htd & Hmax & Hshape).
  fold start in Hcs, Htd, Hmax, Hshape.
  assert (Hle1 : 0 + Z.of_nat (length first) <= max_steps start.1) by (rewrite Hmax; lia).
  assert (Hin1' : Forall (fun a => Gym.Box_contains (-1) 1 (shape start.1) a = true) first)
    by (by rewrite Hshape).
  destruct (steps_inside_segment first start.1 start.2 0 Hnever Hcs Hle1 Hin1')
    as (Hl1 & Hout1 & Htd1 & _).
  destruct (steps_inside_segment_world first start.1 start.2 0 Hnever Hcs Hle1 Hin1')
    as (Hcalls1 & Hsim1 & Hmax1 & Hshape1 & Hlast1).
  fold run1 in Hl1, Hout1, Htd1, Hcalls1, Hsim1, Hmax1, Hshape1, Hlast1.
  assert (Hb : boundary = (last_obs run1.2.1, (set_current_steps run1.2.1 0, run1.2.2))).
  { unfold boundary, reset. by rewrite Htd1, Htd. }
  assert (Hcs2 : current_steps boundary.2.1 = Some 0) by (by rewrite Hb).
  assert (Hle2 : 0 + Z.of_nat (length second) <= max_steps boundary.2.1).
  { rewrite Hb. cbn. rewrite Hmax1, Hmax. lia. }
  assert (Hin2' : Forall (fun a => Gym.Box_contains (-1) 1 (shape boundary.2.1) a = true)
                    second).
  { rewrite Hb. cbn. by rewrite Hshape1, Hshape. }
  destruct (steps_inside_segment second boundary.2.1 boundary.2.2 0 Hnever Hcs2 Hle2 Hin2')
    as (Hl2 & _).
  destruct (steps_inside_segment_world second boundary.2.1 boundary.2.2 0 Hnever Hcs2 Hle2 Hin2')
    as (Hcalls2 & Hsim2 & _).
  fold run2 in Hl2, Hcalls2, Hsim2.
  split; [by rewrite Hb|]. split.
  - destruct (last run1.1) as [out|] eqn:Hlast.
    + destruct (Hlast1 out eq_refl) as (r & d & info & ->).
      rewrite last_lookup in Hlast. apply Hout1 in Hlast as (o' & r' & info' & Heq & _).
      injection Heq as _ _ -> _. exists r, info. rewrite Hb. cbn [fst].
      do 4 f_equal. apply Z.eqb_eq. rewrite Hl1. lia.
    + rewrite last_None in Hlast. rewrite Hlast in Hl1. cbn in Hl1. lia.
  - split; [exact Hl2|]. split.
    + rewrite Hcalls2. rewrite Hb. cbn [fst snd]. by rewrite Hcalls1, map_app, app_assoc.
    + rewrite Hsim2. rewrite Hb. cbn [fst snd]. by rewrite Hsim1, foldl_app.
Qed.

End SegmenterOutcomes.

(** *** The segmenter on the scripted simulators: further runs *)

Section SegmenterOutcomeRuns.
Import EnergyPlusWrapper.

Lemma step_passes_through_witness :
  let self := set_current_steps constructed 2 in
  let action := [0; 1; -1; 1 # 2]%Q in
  let tr := (env_step (sim Endless.fresh) action).1 in
  Gym.Box_contains (-1) 1 (shape self) action = true
  /\ Some [1; 1; 1; 2; 1; 1]%Q = Some (obs_of tr)
  /\ 1%Q = reward_of tr
  /\ ({["true_done" := PyBool false]} : pydict)
     = <["true_done" := PyBool (done_of tr)]> (info_of tr)
  /\ (forall k : string,
        k <> "true_done" ->
        ({["true_done" := PyBool false]} : pydict) !! k = info_of tr !! k)
  /\ true = done_of tr
             || match read_current_steps self
                        {| sim := {| Endless.clock := 1 |}; calls := [CallStep action] |} with
                | Some c => c + 1 =? max_steps self
                | None => false
                end
  /\ true_done (set_current_steps (set_last_obs self [1; 1; 1; 2; 1; 1]%Q) 3)
     = true_done self || done_of tr
  /\ last_obs (set_current_steps (set_last_obs self [1; 1; 1; 2; 1; 1]%Q) 3)
     = Some (obs_of tr)
  /\ {| sim := {| Endless.clock := 1 |}; calls := [CallStep action] |}
     = {| sim := (env_step (sim Endless.fresh) action).2;
          calls := calls Endless.fresh ++ [CallStep action] |}.
Proof.
  intros self action.
  apply (step_passes_through action self
           (set_current_steps (set_last_obs self [1; 1; 1; 2; 1; 1]%Q) 3)
           Endless.fresh {| sim := {| Endless.clock := 1 |}; calls := [CallStep action] |}).
  reflexivity.
Defined.

Lemma step_before_reset_fails_late_witness :
  let action := [0; 1; -1; 1 # 2]%Q in
  step action constructed Endless.fresh
  = (Raise AttributeError,
     (set_last_obs constructed (obs_of (env_step (sim Endless.fresh) action).1),
      {| sim := (env_step (sim Endless.fresh) action).2;
         calls := calls Endless.fresh ++ [CallStep action] |})).
Proof.
  intros action.
  apply (step_before_reset_fails_late action constructed Endless.fresh); reflexivity.
Defined.

(** On the simulator that has a [current_steps] of its own, a [step] on the
    wrapper as constructed does not raise: the counter is read from the
    simulator after its step (there 1), and the wrapper continues from
    it. *)
Example step_reads_the_wrapped_counter :
  step [0; 1; -1; 1 # 2]%Q constructed Counting.fresh
  = (Ok (Some [1; 1; 1; 2; 1; 1]%Q, 1%Q, false, {["true_done" := PyBool false]}),
     (set_current_steps (set_last_obs constructed [1; 1; 1; 2; 1; 1]%Q) 2,
      {| sim := {| Counting.current_steps := 1 |};
         calls := [CallStep [0; 1; -1; 1 # 2]%Q] |})).
Proof. reflexivity. Qed.

Lemma step_past_segment_fails_late_witness :
  let action := [0; 1; -1; 1 # 2]%Q in
  let self := set_current_steps constructed 3 in
  step action self Endless.fresh
  = (Raise ValueError,
     (set_current_steps (set_last_obs self (obs_of (env_step (sim Endless.fresh) action).1))
        (3 + 1),
      {| sim := (env_step (sim Endless.fresh) action).2;
         calls := calls Endless.fresh ++ [CallStep action] |})).
Proof.
  intros action self.
  apply (step_past_segment_fails_late action self Endless.fresh 3);
    [reflexivity|cbn; lia|reflexivity|reflexivity].
Defined.

Lemma reset_at_segment_boundary_witness :
  let first := [[0; 0; 0; 0]; [1; -1; 1 # 2; 0]; [-1; -1; -1; -1]]%Q in
  let second := [[1; 1; 1; 1]; [0; 0; 0; 0]]%Q in
  let start := (reset ∅ constructed Endless.fresh).2 in
  let run1 := steps first start.1 start.2 in
  let boundary := reset ∅ run1.2.1 run1.2.2 in
  let run2 := steps second boundary.2.1 boundary.2.2 in
  boundary.2.2 = run1.2.2
  /\ (exists r info, last run1.1 = Some (Ok (boundary.1, r, true, info)))
  /\ length run2.1 = length second
  /\ calls run2.2.2 = calls start.2 ++ map CallStep (first ++ second)
  /\ sim run2.2.2 = foldl (fun e a => (env_step e a).2) (sim start.2) (first ++ second).
Proof.
  intros first second.
  apply (reset_at_segment_boundary 3 first second ∅ ∅ constructed Endless.fresh).
  - reflexivity.
  - lia.
  - intros e a. reflexivity.
  - reflexivity.
  - cbn. lia.
  - repeat constructor.
  - repeat constructor.
Defined.

End SegmenterOutcomeRuns.

(** ** Action quantisation: range, bounds and bijection *)

Section QuantizerOutcomes.
Import EnergyPlusDiscreteActionWrapper.

(** [action] on an index of the range: the vector of table entries at the
    digits of the index. *)
Lemma action_in_range (n : nat) (levels : Z) (self : t) (index : Z) :
  __init__ n levels = Ok self ->
  0 <= index < levels ^ Z.of_nat n ->
  exists v,
    action self index = Ok v
    /\ length v = n
    /\ forall i : nat,
        (i < n)%nat ->
        v !! i = action_table self !! Z.to_nat (digit levels index i)
        /\ (Z.to_nat (digit levels index i) < Z.to_nat levels)%nat.
Proof.
  intros Hinit Hrange.
  destruct (init_fields n levels self Hinit) as (Hlev & Hspace & Hnum & Hdims & Htable).
  assert (Hcontains : Gym.Discrete_contains (space_n self) index = true).
  { unfold Gym.Discrete_contains. rewrite Hspace.
    apply andb_true_iff. split; [apply Z.leb_le|apply Z.ltb_lt]; lia. }
  unfold action. rewrite Hcontains, Hdims, Hnum. cbn [negb].
  destruct n as [|n].
  - exists []. cbn. repeat split; lia.
  - assert (Hpos : 0 < levels).
    { destruct (Z.eq_dec levels 0) as [->|]; [|lia].
      rewrite Z.pow_0_l in Hrange by lia. lia. }
    rewrite decompose_digits by exact Hpos.
    pose proof (linspace_length _ _ _ _ Htable) as Hlen.
    destruct (take_indices_in_range (action_table self)
                (map (digit levels index) (seq 0 (S n)))) as (v & Hv & Hvlen & Hnth).
    { apply Forall_forall. intros d Hd. apply list_elem_of_In, in_map_iff in Hd.
      destruct Hd as (i & <- & _). rewrite Hlen, Z2Nat.id by lia. by apply digit_range. }
    exists v. cbn [mbind result_bind]. split; [exact Hv|].
    split; [by rewrite Hvlen, length_map, length_seq|].
    intros i Hi. pose proof (digit_range levels index i Hpos) as Hd. split; [|lia].
    apply Hnth. by rewrite lookup_map, lookup_seq_lt.
Qed.

(** X17: [action] accepts exactly the indices of the range
    [0 <= index < num_levels ^ dims]; on any other integer it raises
    [AssertionError]. *)
Theorem action_accepts_exactly_the_range (n : nat) (levels : Z) (self : t) (index : Z) :
  __init__ n levels = Ok self ->
  ((exists v, action self index = Ok v) <-> 0 <= index < levels ^ Z.of_nat n)
  /\ (~ 0 <= index < levels ^ Z.of_nat n -> action self index = Raise AssertionError).
Proof.
  intros Hinit.
  destruct (init_fields n levels self Hinit) as (_ & Hspace & _).
  assert (Hout : ~ 0 <= index < levels ^ Z.of_nat n ->
                 action self index = Raise AssertionError).
  { intros Hno. unfold action, Gym.Discrete_contains. rewrite Hspace.
    destruct (Z.leb_spec 0 index); [|reflexivity].
    destruct (Z.ltb_spec index (levels ^ Z.of_nat n)); [lia|reflexivity]. }
  split; [|exact Hout]. split.
  - intros [v Hv].
    destruct (decide (0 <= index < levels ^ Z.of_nat n)) as [Hin|Hno]; [exact Hin|].
    rewrite (Hout Hno) in Hv. discriminate.
  - intros Hin. destruct (action_in_range n levels self index Hinit Hin) as (v & Hv & _).
    by exists v.
Qed.

Lemma action_accepts_range_aux (n : nat) (levels : Z) (self : t) (index : Z) (v : list Q) :
  __init__ n levels = Ok self ->
  action self index = Ok v ->
  0 <= index < levels ^ Z.of_nat n.
Proof.
  intros Hinit Hv.
  destruct (init_fields n levels self Hinit) as (_ & Hspace & _).
  unfold action, Gym.Discrete_contains in Hv. rewrite Hspace in Hv.
  destruct (Z.leb_spec 0 index); [|discriminate].
  destruct (Z.ltb_spec index (levels ^ Z.of_nat n)); [lia|discriminate].
Qed.

Lemma table_entry_bounds (levels : Z) (table : list Q) (j : nat) (x : Q) :
  Numpy.linspace (-1) 1 levels = Ok table ->
  table !! j = Some x ->
  (-1 <= x)%Q /\ (x <= 1)%Q.
Proof.
  intros Htable Hx.
  assert (Hj : (j < Z.to_nat levels)%nat).
  { rewrite <- (linspace_length _ _ _ _ Htable). by apply lookup_lt_Some in Hx. }
  destruct (linspace_entries levels table j Htable Hj) as (x' & Hx' & Hval).
  rewrite Hx in Hx'. injection Hx' as <-.
  destruct (Z.eq_dec levels 1) as [->|Hne].
  - assert (j = O) by lia. subst j. rewrite Hval. split; by vm_compute.
  - set (m := levels - 1) in *. assert (Hm : 0 < m) by lia.
    assert (Hjm : Z.of_nat j <= m) by lia.
    assert (Hmq : (0 < inject_Z m)%Q) by (change 0%Q with (inject_Z 0); by rewrite <- Zlt_Qlt).
    assert (Hjq : (0 <= inject_Z (Z.of_nat j))%Q).
    { change 0%Q with (inject_Z 0). rewrite <- Zle_Qle. lia. }
    assert (Hjmq : (inject_Z (Z.of_nat j) <= inject_Z m)%Q) by (by rewrite <- Zle_Qle).
    assert (Hfrac : (inject_Z (Z.of_nat j) * (2 / inject_Z m)
                     == (inject_Z (Z.of_nat j) * 2) / inject_Z m)%Q).
    { field. intros Hz. rewrite Hz in Hmq. by apply Qlt_irrefl in Hmq. }
    rewrite Hval, Hfrac. split.
    + apply (Qplus_le_r _ _ 1). ring_simplify.
      apply Qle_shift_div_l; [exact Hmq|]. ring_simplify.
      apply (Qmult_le_0_compat 2); [discriminate|exact Hjq].
    + apply (Qplus_le_r _ _ 1). ring_simplify.
      apply Qle_shift_div_r; [exact Hmq|].
      rewrite (Qmult_comm 2). apply Qmult_le_compat_r; [exact Hjmq|discriminate].
Qed.

(** Distinct positions of the action table hold distinct values. *)
Lemma table_entries_distinct (levels : Z) (table : list Q) (j k : nat) (x y : Q) :
  Numpy.linspace (-1) 1 levels = Ok table ->
  table !! j = Some x ->
  table !! k = Some y ->
  (x == y)%Q ->
  j = k.
Proof.
  intros Htable Hx Hy Hxy.
  assert (Hj : (j < Z.to_nat levels)%nat).
  { rewrite <- (linspace_length _ _ _ _ Htable). by apply lookup_lt_Some in Hx. }
  assert (Hk : (k < Z.to_nat levels)%nat).
  { rewrite <- (linspace_length _ _ _ _ Htable). by apply lookup_lt_Some in Hy. }
  destruct (linspace_entries levels table j Htable Hj) as (x' & Hx' & Hxval).
  destruct (linspace_entries levels table k Htable Hk) as (y' & Hy' & Hyval).
  rewrite Hx in Hx'. injection Hx' as <-. rewrite Hy in Hy'. injection Hy' as <-.
  destruct (Z.eq_dec levels 1) as [->|Hne]; [lia|].
  assert (Hm : 0 < levels - 1) by lia.
  assert (Hstep : ~ (2 / inject_Z (levels - 1) == 0)%Q).
  { intros Hz. unfold Qeq in Hz. cbn in Hz.
    destruct (levels - 1) as [|p|p] eqn:Hp; cbn in Hz; lia. }
  rewrite Hxval, Hyval in Hxy.
  apply Qplus_inj_l in Hxy. apply Qmult_inj_r in Hxy; [|exact Hstep].
  rewrite inject_Z_injective in Hxy. lia.
Qed.

(** X18: every vector [action] returns passes the bounds check that
    [EnergyPlusWrapper.step] applies: it has [dims] components and each lies
    between -1 and 1. *)
Theorem action_within_box (n : nat) (levels : Z) (self : t) (index : Z) (v : list Q) :
  __init__ n levels = Ok self ->
  action self index = Ok v ->
  Gym.Box_contains (-1) 1 n v = true.
Proof.
  intros Hinit Hv.
  pose proof (action_accepts_range_aux n levels self index v Hinit Hv) as Hrange.
  destruct (action_in_range n levels self index Hinit Hrange) as (v' & Hv' & Hlen & Hnth).
  rewrite Hv in Hv'. injection Hv' as <-.
  destruct (init_fields n levels self Hinit) as (_ & _ & _ & _ & Htable).
  assert (Hall : Forall (fun x => (-1 <= x)%Q /\ (x <= 1)%Q) v).
  { apply Forall_lookup. intros i x Hx.
    assert (Hi : (i < n)%nat) by (rewrite <- Hlen; by apply lookup_lt_Some in Hx).
    destruct (Hnth i Hi) as [Hentry _]. rewrite Hx in Hentry. symmetry in Hentry.
    exact (table_entry_bounds levels (action_table self) _ x Htable Hentry). }
  unfold Gym.Box_contains. rewrite Hlen, Nat.eqb_refl. cbn [andb].
  apply andb_true_iff. split; apply forallb_forall; intros x Hx;
    apply list_elem_of_In in Hx; rewrite Forall_forall in Hall;
    apply Qle_bool_iff; by apply Hall.
Qed.

(** X19: distinct indices of the range give distinct action vectors. *)
Theorem action_injective (n : nat) (levels : Z) (self : t) (a b : Z) (v : list Q) :
  __init__ n levels = Ok self ->
  action self a = Ok v ->
  action self b = Ok v ->
  a = b.
Proof.
  intros Hinit Ha Hb.
  pose proof (action_accepts_range_aux n levels self a v Hinit Ha) as Hra.
  pose proof (action_accepts_range_aux n levels self b v Hinit Hb) as Hrb.
  destruct (action_in_range n levels self a Hinit Hra) as (va & Hva & Hlen & Hntha).
  destruct (action_in_range n levels self b Hinit Hrb) as (vb & Hvb & _ & Hnthb).
  rewrite Ha in Hva. injection Hva as <-. rewrite Hb in Hvb. injection Hvb as <-.
  destruct (init_fields n levels self Hinit) as (Hlev & _ & _ & _ & Htable).
  destruct n as [|n]; [cbn in Hra, Hrb; lia|].
  assert (Hpos : 0 < levels).
  { destruct (Z.eq_dec levels 0) as [->|]; [|lia].
    rewrite Z.pow_0_l in Hra by lia. lia. }
  apply (decompose_injective (S n) levels Hpos); [exact Hra|exact Hrb|].
  rewrite !decompose_digits by exact Hpos. f_equal.
  apply map_ext_in. intros i Hi. apply in_seq in Hi.
  destruct (Hntha i) as [Hea Hda]; [lia|]. destruct (Hnthb i) as [Heb Hdb]; [lia|].
  destruct (lookup_lt_is_Some_2 v i) as [x Hx]; [lia|].
  rewrite Hx in Hea, Heb.
  pose proof (table_entries_distinct levels (action_table self) _ _ x x Htable
                (eq_sym Hea) (eq_sym Heb) (Qeq_refl x)) as Heq.
  pose proof (digit_range levels a i Hpos). pose proof (digit_range levels b i Hpos).
  lia.
Qed.

(** Every tuple of digits below [num_levels] is the decomposition of an
    index of the range. *)
Lemma decompose_surjective (levels : Z) (ds : list Z) :
  Forall (fun d => 0 <= d < levels) ds ->
  exists index : Z,
    0 <= index < levels ^ Z.of_nat (length ds)
    /\ decompose (length ds) levels index = Ok ds.
Proof.
  induction 1 as [|d ds Hd _ (rest & Hrest & Hdec)].
  - exists 0. cbn. split; [lia|reflexivity].
  - exists (d + levels * rest). cbn [length]. split.
    + rewrite Nat2Z.inj_succ, Z.pow_succ_r by lia. nia.
    + cbn [decompose]. destruct (Z.eqb_spec levels 0) as [|_]; [lia|].
      assert (Hmod : (d + levels * rest) mod levels = d).
      { replace (d + levels * rest) with (d + rest * levels) by lia.
        rewrite Z_mod_plus_full. apply Z.mod_small. lia. }
      rewrite Hmod.
      replace ((d + levels * rest - d) / levels) with rest
        by (replace (d + levels * rest - d) with (rest * levels) by lia;
            symmetry; apply Z.div_mul; lia).
      by rewrite Hdec.
Qed.

(** X20: every combination of levels is reachable.  For each tuple of
    [dims] level numbers below [num_levels] there is an index of the range
    whose digits are that tuple and on which [action] returns the table
    entries at those levels. *)
Theorem every_level_tuple_has_an_index (n : nat) (levels : Z) (self : t) (ds : list Z) :
  __init__ n levels = Ok self ->
  length ds = n ->
  Forall (fun d => 0 <= d < levels) ds ->
  exists (index : Z) (v : list Q),
    0 <= index < levels ^ Z.of_nat n
    /\ decompose n levels index = Ok ds
    /\ action self index = Ok v
    /\ Numpy.take_indices (action_table self) ds = Ok v.
Proof.
  intros Hinit Hlen Hds.
  destruct (decompose_surjective levels ds Hds) as (index & Hrange & Hdec).
  rewrite Hlen in Hrange, Hdec.
  destruct (action_in_range n levels self index Hinit Hrange) as (v & Hv & _).
  exists index, v. repeat split; try done; try lia.
  destruct (init_fields n levels self Hinit) as (_ & _ & Hnum & Hdims & _).
  unfold action in Hv. rewrite Hdims, Hnum, Hdec in Hv.
  by destruct (Gym.Discrete_contains (space_n self) index).
Qed.

Lemma digit_of_zero (levels : Z) (i : nat) : 0 < levels -> digit levels 0 i = 0.
Proof. intros Hpos. unfold digit. by rewrite Z.div_0_l, Z.mod_0_l by lia. Qed.

Lemma digit_of_last (levels : Z) (i : nat) :
  0 < levels ->
  forall n : nat, (i < n)%nat -> digit levels (levels ^ Z.of_nat n - 1) i = levels - 1.
Proof.
  intros Hpos. induction i as [|i IH]; intros n Hi.
  - destruct n as [|n]; [lia|]. unfold digit. cbn [Z.of_nat Z.pow]. rewrite Z.div_1_r.
    rewrite Nat2Z.inj_succ, Z.pow_succ_r by lia.
    assert (Hpow : 0 < levels ^ Z.of_nat n) by (apply Z.pow_pos_nonneg; lia).
    symmetry. apply (Z.mod_unique _ _ (levels ^ Z.of_nat n - 1)); lia.
  - destruct n as [|n]; [lia|]. rewrite <- digit_succ by exact Hpos.
    replace ((levels ^ Z.of_nat (S n) - 1) / levels) with (levels ^ Z.of_nat n - 1).
    + apply IH. lia.
    + rewrite Nat2Z.inj_succ, Z.pow_succ_r by lia.
      assert (Hpow : 0 < levels ^ Z.of_nat n) by (apply Z.pow_pos_nonneg; lia).
      apply (Z.div_unique _ _ _ (levels - 1)); lia.
Qed.

(** X21: the two ends of the index range.  Index 0 is the action with
    every component at -1; with at least two levels, the last index
    [num_levels ^ dims - 1] is the action with every component at 1. *)
Theorem action_extremes (n : nat) (levels : Z) (self : t) :
  __init__ n levels = Ok self ->
  0 < levels ->
  (exists v, action self 0 = Ok v /\ length v = n /\ Forall (fun x => (x == -1)%Q) v)
  /\ (2 <= levels ->
      exists v,
        action self (levels ^ Z.of_nat n - 1) = Ok v
        /\ length v = n
        /\ Forall (fun x => (x == 1)%Q) v).
Proof.
  intros Hinit Hpos.
  destruct (init_fields n levels self Hinit) as (_ & _ & _ & _ & Htable).
  assert (Hpow : 0 < levels ^ Z.of_nat n) by (apply Z.pow_pos_nonneg; lia).
  split.
  - destruct (action_in_range n levels self 0 Hinit) as (v & Hv & Hlen & Hnth); [lia|].
    exists v. split; [exact Hv|]. split; [exact Hlen|].
    apply Forall_lookup. intros i x Hx.
    assert (Hi : (i < n)%nat) by (rewrite <- Hlen; by apply lookup_lt_Some in Hx).
    destruct (Hnth i Hi) as [Hentry Hd]. rewrite digit_of_zero in Hentry, Hd by exact Hpos.
    destruct (linspace_entries levels (action_table self) _ Htable Hd) as (x' & Hx' & Hval).
    rewrite Hx, Hx' in Hentry. injection Hentry as ->. rewrite Hval.
    change (inject_Z (Z.of_nat (Z.to_nat 0))) with 0%Q.
    rewrite Qmult_0_l. apply Qplus_0_r.
  - intros Htwo.
    destruct (action_in_range n levels self (levels ^ Z.of_nat n - 1) Hinit)
      as (v & Hv & Hlen & Hnth); [lia|].
    exists v. split; [exact Hv|]. split; [exact Hlen|].
    apply Forall_lookup. intros i x Hx.
    assert (Hi : (i < n)%nat) by (rewrite <- Hlen; by apply lookup_lt_Some in Hx).
    destruct (Hnth i Hi) as [Hentry Hd].
    rewrite (digit_of_last levels i Hpos n Hi) in Hentry, Hd.
    destruct (linspace_entries levels (action_table self) _ Htable Hd) as (x' & Hx' & Hval).
    rewrite Hx, Hx' in Hentry. injection Hentry as ->. rewrite Hval.
    rewrite Z2Nat.id by lia. field.
    intros Hz. unfold Qeq in Hz. cbn in Hz. lia.
Qed.

End QuantizerOutcomes.

(** *** The quantizer with three levels on two dimensions *)

Section QuantizerRuns.
Import EnergyPlusDiscreteActionWrapper.

Lemma action_accepts_exactly_the_range_witness :
  exists self,
    __init__ 2 3 = Ok self
    /\ ((exists v, action self 9 = Ok v) <-> 0 <= 9 < 3 ^ Z.of_nat 2)
    /\ (~ 0 <= 9 < 3 ^ Z.of_nat 2 -> action self 9 = Raise AssertionError).
Proof.
  eexists. split; [reflexivity|].
  apply (action_accepts_exactly_the_range 2 3). reflexivity.
Defined.

Lemma action_within_box_witness :
  exists self v,
    __init__ 2 3 = Ok self
    /\ action self 5 = Ok v
    /\ Gym.Box_contains (-1) 1 2 v = true.
Proof.
  eexists _, _. split; [reflexivity|]. split; [reflexivity|].
  eapply (action_within_box 2 3 _ 5); reflexivity.
Defined.

Lemma action_injective_witness :
  exists self v,
    __init__ 2 3 = Ok self
    /\ action self 5 = Ok v
    /\ 5 = 5.
Proof.
  eexists _, _. split; [reflexivity|]. split; [reflexivity|].
  eapply (action_injective 2 3 _ 5 5); reflexivity.
Defined.

Lemma every_level_tuple_has_an_index_witness :
  exists self,
    __init__ 2 3 = Ok self
    /\ exists (index : Z) (v : list Q),
        0 <= index < 3 ^ Z.of_nat 2
        /\ decompose 2 3 index = Ok [2; 1]
        /\ action self index = Ok v
        /\ Numpy.take_indices (action_table self) [2; 1] = Ok v.
Proof.
  eexists. split; [reflexivity|].
  apply (every_level_tuple_has_an_index 2 3); [reflexivity|reflexivity|].
  repeat (constructor; [lia|]). constructor.
Defined.

Lemma action_extremes_witness :
  exists self,
    __init__ 2 3 = Ok self
    /\ (exists v, action self 0 = Ok v /\ length v = 2%nat
                  /\ Forall (fun x => (x == -1)%Q) v)
    /\ (2 <= 3 ->
        exists v,
          action self (3 ^ Z.of_nat 2 - 1) = Ok v
          /\ length v = 2%nat
          /\ Forall (fun x => (x == 1)%Q) v).
Proof.
  eexists. split; [reflexivity|].
  apply (action_extremes 2 3); [reflexivity|lia].
Defined.

End QuantizerRuns.

(** ** The logged action *)

Section MonitorFacts.

Lemma broadcast_same_length (op : Q -> Q -> Q) (x y : list Q) :
  length x = length y -> Numpy.broadcast op x y = Ok (zip_with op x y).
Proof. intros Hlen. unfold Numpy.broadcast. by rewrite Hlen, Nat.eqb_refl. Qed.

(** X22: for bounds and an action of one length, the logged action is
    defined and has that length; component [i] is
    [low_i + (a_i + 1) / 2 * (high_i - low_i)], so -1 is logged as the lower
    bound and 1 as the upper bound, and with [low_i <= high_i] every
    component the segmenter accepts (between -1 and 1) is logged within the
    bounds. *)
Theorem original_action_within_bounds (low high action : list Q) :
  length high = length low ->
  length action = length low ->
  exists logged,
    Monitor.original_action low high action = Ok logged
    /\ length logged = length low
    /\ forall (i : nat) (l h a : Q),
        low !! i = Some l ->
        high !! i = Some h ->
        action !! i = Some a ->
        exists x,
          logged !! i = Some x
          /\ (x == l + (a + 1) / 2 * (h - l))%Q
          /\ ((a == -1)%Q -> (x == l)%Q)
          /\ ((a == 1)%Q -> (x == h)%Q)
          /\ ((l <= h)%Q -> (-1 <= a)%Q -> (a <= 1)%Q -> (l <= x)%Q /\ (x <= h)%Q).
Proof.
  intros Hhigh Haction. unfold Monitor.original_action.
  rewrite (broadcast_same_length Qminus high low Hhigh). cbn [mbind result_bind].
  rewrite broadcast_same_length by (rewrite !length_map, length_zip_with; lia).
  cbn [mbind result_bind].
  rewrite broadcast_same_length by (rewrite !length_zip_with, !length_map; lia).
  eexists. split; [reflexivity|].
  split; [rewrite !length_zip_with, !length_map; lia|].
  intros i l h a Hl Hh Ha.
  exists (l + (a + 1) * (1 # 2) * (h - l))%Q.
  assert (Hval : (l + (a + 1) * (1 # 2) * (h - l) == l + (a + 1) / 2 * (h - l))%Q) by field.
  split.
  - apply lookup_zip_with_Some. eexists _, _. split; [reflexivity|]. split; [exact Hl|].
    apply lookup_zip_with_Some. eexists _, _. split; [reflexivity|]. split.
    + by rewrite !lookup_map, Ha.
    + apply lookup_zip_with_Some. by eexists _, _.
  - split; [exact Hval|]. split; [|split].
    + intros ->. ring.
    + intros ->. ring.
    + intros Hlh Hlo Hhi.
      assert (Hw : (0 <= h - l)%Q) by (apply (Qplus_le_l _ _ l); by ring_simplify).
      assert (Hs : (0 <= (a + 1) * (1 # 2))%Q).
      { apply Qmult_le_0_compat; [|discriminate].
        apply (Qplus_le_l _ _ (-1)). by ring_simplify. }
      assert (Hs' : ((a + 1) * (1 # 2) <= 1)%Q).
      { apply (Qmult_le_r _ _ 2); [reflexivity|]. ring_simplify.
        apply (Qplus_le_l _ _ (-1)). by ring_simplify. }
      split.
      * apply Qle_trans with (l + 0)%Q; [rewrite Qplus_0_r; apply Qle_refl|].
        apply Qplus_le_r. by apply Qmult_le_0_compat.
      * apply Qle_trans with (l + 1 * (h - l))%Q.
        -- apply Qplus_le_r. by apply Qmult_le_compat_r.
        -- ring_simplify. apply Qle_refl.
Qed.

Lemma original_action_within_bounds_witness :
  let low := [10; 10; 0; 0]%Q in
  let high := [40; 40; 10; 10]%Q in
  let action := [0; 1; -1; 1 # 2]%Q in
  exists logged,
    Monitor.original_action low high action = Ok logged
    /\ length logged = length low
    /\ forall (i : nat) (l h a : Q),
        low !! i = Some l ->
        high !! i = Some h ->
        action !! i = Some a ->
        exists x,
          logged !! i = Some x
          /\ (x == l + (a + 1) / 2 * (h - l))%Q
          /\ ((a == -1)%Q -> (x == l)%Q)
          /\ ((a == 1)%Q -> (x == h)%Q)
          /\ ((l <= h)%Q -> (-1 <= a)%Q -> (a <= 1)%Q -> (l <= x)%Q /\ (x <= h)%Q).
Proof.
  intros low high action.
  apply (original_action_within_bounds low high action); reflexivity.
Defined.

End MonitorFacts.
